(** * VSCode MCP task extension: execution tracker and task operations

    A shallow embedding of [out/taskProvider.js] (the execution tracker),
    [out/mcpTools.js] (the five tool operations and their dispatch), of the
    JSON-RPC dispatch of the WebSocket server and the tool handlers of the
    stdio server in [out/mcpServer.js], and of [out/logger.js], followed by
    the properties of the specification checked against them and by
    further properties read off the code.

    Conventions of the embedding.
    - A JavaScript string is a [string]; [undefined] is [None].
    - An [async] function that can throw returns a [Result]; the awaited
      registry calls ([vscode.tasks.fetchTasks], [vscode.tasks.executeTask])
      are inputs gathered in a [Registry] record.
    - The two [Map]s of [TaskProvider] are state that is passed explicitly;
      the timers armed by [executeTask] are the fields of a [Call], and one
      callback run is one [Event] of the step function [step].
    - [String.prototype.toLowerCase] is the engine's function, not the
      repository's: the definitions that call it take it as the parameter
      [Js.Lowering], and so do the statements about them.
    - The methods of [TaskProvider] keep their names; those of [MCPTools]
      live in the module [MCPTools].  Calls of the logger are left out: they
      read their arguments and change nothing that the operations read. *)

From Stdlib Require Import ZArith Ascii String List Bool Lia.
From stdpp Require Import base option gmap strings list pretty.
Import ListNotations.

Local Open Scope string_scope.
Local Open Scope Z_scope.

(** ** JavaScript built-ins used by the sources *)

Module Js.

(** A thrown value: an [Error] object with its message, or any other value. *)
Inductive Thrown : Type :=
| JsError (message : string)
| JsOther.

(** [error instanceof Error ? error.message : dflt] *)
Definition messageOr (dflt : string) (error : Thrown) : string :=
  match error with
  | JsError m => m
  | JsOther => dflt
  end.

(** Truthiness of a string: only the empty string is falsy. *)
Definition truthy (s : string) : bool := negb (String.eqb s "").

(** Truthiness of a possibly undefined string. *)
Definition truthyOpt (o : option string) : bool :=
  match o with
  | Some s => truthy s
  | None => false
  end.

(** [o || dflt] for a possibly undefined string. *)
Definition orElse (o : option string) (dflt : string) : string :=
  match o with
  | Some s => if truthy s then s else dflt
  | None => dflt
  end.

(** Lower-casing of ASCII text: the letters [A]-[Z] move to [a]-[z],
    every other character stays. *)
Definition asciiLower (c : ascii) : ascii :=
  let n := nat_of_ascii c in
  if (Nat.leb 65 n && Nat.leb n 90)%bool then ascii_of_nat (n + 32) else c.

Fixpoint asciiToLowerCase (s : string) : string :=
  match s with
  | EmptyString => EmptyString
  | String c s' => String (asciiLower c) (asciiToLowerCase s')
  end.

(** Every character of [s] is an ASCII character (below 128). *)
Fixpoint isAscii (s : string) : bool :=
  match s with
  | EmptyString => true
  | String c s' => (Nat.ltb (nat_of_ascii c) 128 && isAscii s')%bool
  end.

(** [String.prototype.toLowerCase]. The function and its Unicode tables
    belong to the JavaScript engine, not to this repository, so the
    embedding does not define it: it is a parameter of everything that
    calls it, known by two facts of ECMAScript's definition. On ASCII
    text it lower-cases the letters [A]-[Z] and nothing else; and the
    empty string is the only string it turns into the empty string. What
    it does to other text (accented letters, a final sigma, ...) is left
    open, so what is proved holds whatever the engine does there. *)
Class Lowering : Type := mkLowering {
  toLowerCase : string -> string;
  toLowerCase_ascii :
    forall s : string, isAscii s = true -> toLowerCase s = asciiToLowerCase s;
  toLowerCase_truthy :
    forall s : string, truthy (toLowerCase s) = truthy s
}.

(** [String.prototype.includes]: [sub] occurs in [s] at some position. *)
Fixpoint includes (s sub : string) : bool :=
  (String.prefix sub s
   || match s with
      | EmptyString => false
      | String _ s' => includes s' sub
      end)%bool.

(** [Array.prototype.join] *)
Fixpoint join (sep : string) (l : list string) : string :=
  match l with
  | [] => ""
  | [x] => x
  | x :: rest => x +:+ sep +:+ join sep rest
  end.

(** Template-literal rendering of a boolean and of a number. *)
Definition ofBool (b : bool) : string := if b then "true" else "false".
Definition ofNat (n : nat) : string := pretty n.
Definition ofZ (z : Z) : string := pretty z.

End Js.

(** ** Exceptions *)

Inductive Result (A : Type) : Type :=
| Ok (a : A)
| Throw (e : Js.Thrown).
Arguments Ok {A} a.
Arguments Throw {A} e.

#[global] Instance Result_ret : MRet Result := fun A a => Ok a.

#[global] Instance Result_bind : MBind Result := fun A B k r =>
  match r with
  | Ok a => k a
  | Throw e => Throw e
  end.

#[global] Instance Result_fmap : FMap Result := fun A B f r =>
  match r with
  | Ok a => Ok (f a)
  | Throw e => Throw e
  end.

(** [try { body } catch (error) { handler }] *)
Definition tryCatch {A : Type} (body : Result A) (handler : Js.Thrown -> Result A)
  : Result A :=
  match body with
  | Ok a => Ok a
  | Throw e => handler e
  end.

(** ** Data model ([src/types.ts] and the [vscode] task objects) *)

(** [vscode.TaskScope.Global] is 1, [vscode.TaskScope.Workspace] is 2; a
    task of a workspace folder carries the folder object. *)
Inductive TaskScope : Type :=
| Global
| Workspace
| Folder (name : string).

(** A shell argument: a plain string or a [ShellQuotedString] with a [value]. *)
Inductive ShellArg : Type :=
| Plain (s : string)
| Quoted (value : string).

(** [task.execution] of a [vscode.Task]. *)
Inductive VExecution : Type :=
| ShellExecution (commandLine : option string) (command : option ShellArg)
    (args : option (list ShellArg))
| ProcessExecution (process : string) (args : option (list string))
| CustomExecution.

(** A [vscode.Task] as far as the extension reads it.  [task_groupKind] is
    [task.group?.kind]; [task_definition] is the definition payload as
    [JSON.stringify(., null, 2)] renders it. *)
Record Task : Type := mkTask {
  task_name : string;
  task_source : string;
  task_groupKind : option string;
  task_scope : option TaskScope;
  task_definition : string;
  task_execution : option VExecution;
  task_isBackground : bool;
  task_problemMatchers : list string
}.

Inductive ExecutionType : Type := shell | process | custom.

Record ExecutionInfo : Type := mkExecutionInfo {
  exec_type : ExecutionType;
  exec_command : option string;
  exec_args : option (list string)
}.

(** [TaskInfo] of [types.ts]. *)
Record TaskInfo : Type := mkTaskInfo {
  info_name : string;
  info_source : string;
  info_group : option string;
  info_scope : string;
  info_definition : string;
  info_execution : option ExecutionInfo;
  info_isBackground : option bool;
  info_problemMatchers : option (list string)
}.

(** [TaskExecutionResult] of [types.ts]. *)
Record TaskExecutionResult : Type := mkResult {
  taskName : string;
  exitCode : option Z;
  success : bool;
  output : option string;
  error : option string;
  duration : Z
}.

(** The uniform result of a tool: the text of its single content block and
    the [isError] flag ([undefined] counts as [false]). *)
Record Outcome : Type := mkOutcome {
  text : string;
  isError : bool
}.

(** ** A JavaScript [Map] with string keys

    [Map] iterates in insertion order and [set] on a present key keeps the
    key's position; [terminateTask] depends on that order. *)

Module JsMap.

Definition t (V : Type) : Type := list (string * V).

Definition empty {V : Type} : t V := [].

Fixpoint get {V : Type} (k : string) (m : t V) : option V :=
  match m with
  | [] => None
  | (k', v) :: m' => if String.eqb k' k then Some v else get k m'
  end.

Definition has {V : Type} (k : string) (m : t V) : bool :=
  match get k m with
  | Some _ => true
  | None => false
  end.

Fixpoint set {V : Type} (k : string) (v : V) (m : t V) : t V :=
  match m with
  | [] => [(k, v)]
  | (k', v') :: m' =>
      if String.eqb k' k then (k, v) :: m' else (k', v') :: set k v m'
  end.

Fixpoint delete {V : Type} (k : string) (m : t V) : t V :=
  match m with
  | [] => []
  | (k', v') :: m' =>
      if String.eqb k' k then delete k m' else (k', v') :: delete k m'
  end.

Definition values {V : Type} (m : t V) : list V := List.map snd m.

End JsMap.

(** ** The execution tracker ([out/taskProvider.js]) *)

(** The state of a [TaskProvider]: [taskExecutions] maps a task id to the
    live execution (identified here with its task), [executionResults]
    buffers the result of a completed run under the same id. *)
Record TaskProvider : Type := mkTaskProvider {
  taskExecutions : JsMap.t Task;
  executionResults : gmap string TaskExecutionResult
}.

(** [new TaskProvider()] *)
Definition newTaskProvider : TaskProvider :=
  {| taskExecutions := JsMap.empty; executionResults := ∅ |}.

(** [`${task.scope}`]: the enum members are numbers, a workspace folder is
    an object, a task without scope has [undefined]. *)
Definition scopeTemplate (scope : option TaskScope) : string :=
  match scope with
  | Some Global => "1"
  | Some Workspace => "2"
  | Some (Folder _) => "[object Object]"
  | None => "undefined"
  end.

Definition getTaskId (task : Task) : string :=
  task_source task +:+ "-" +:+ task_name task +:+ "-" +:+ scopeTemplate (task_scope task).

(** [vscode.tasks.onDidStartTask] listener. *)
Definition onDidStartTask (p : TaskProvider) (task : Task) : TaskProvider :=
  let taskId := getTaskId task in
  {| taskExecutions := JsMap.set taskId task (taskExecutions p);
     executionResults := executionResults p |}.

(** [vscode.tasks.onDidEndTask] listener; [now0] and [now1] are the two
    readings of [Date.now()] it takes. *)
Definition onDidEndTask (p : TaskProvider) (task : Task) (now0 now1 : Z)
  : TaskProvider :=
  let taskId := getTaskId task in
  let startTime := now0 in
  let result :=
    {| taskName := task_name task;
       exitCode := None;
       success := true;
       output := None;
       error := None;
       duration := now1 - startTime |} in
  {| taskExecutions := JsMap.delete taskId (taskExecutions p);
     executionResults := <[taskId := result]> (executionResults p) |}.

(** [vscode.tasks.onDidEndTaskProcess] listener; [e.exitCode] is a number
    or [undefined]. *)
Definition onDidEndTaskProcess (p : TaskProvider) (task : Task) (code : option Z)
  : TaskProvider :=
  let taskId := getTaskId task in
  match executionResults p !! taskId with
  | Some result =>
      let result' :=
        {| taskName := taskName result;
           exitCode := code;
           success := match code with Some c => c =? 0 | None => false end;
           output := output result;
           error := error result;
           duration := duration result |} in
      {| taskExecutions := taskExecutions p;
         executionResults := <[taskId := result']> (executionResults p) |}
  | None => p
  end.

(** [getScopeString]; the argument is [task.scope || vscode.TaskScope.Workspace]. *)
Definition getScopeString (scope : TaskScope) : string :=
  match scope with
  | Global => "global"
  | Workspace => "workspace"
  | Folder name => "folder:" +:+ name
  end.

Definition shellArgValue (arg : ShellArg) : string :=
  match arg with
  | Plain s => s
  | Quoted value => value
  end.

Definition getExecutionInfo (task : Task) : option ExecutionInfo :=
  match task_execution task with
  | Some (ShellExecution commandLine command args) =>
      let command' :=
        if Js.truthyOpt commandLine then Js.orElse commandLine ""
        else match command with
             | Some (Plain s) => s
             | Some (Quoted value) => Js.orElse (Some value) ""
             | None => ""
             end in
      let args' := match args with Some l => List.map shellArgValue l | None => [] end in
      Some {| exec_type := shell; exec_command := Some command'; exec_args := Some args' |}
  | Some (ProcessExecution proc args) =>
      let args' := match args with Some l => l | None => [] end in
      Some {| exec_type := process; exec_command := Some proc; exec_args := Some args' |}
  | Some CustomExecution =>
      Some {| exec_type := custom; exec_command := None; exec_args := None |}
  | None => None
  end.

(** What the awaited calls into [vscode.tasks] answer. *)
Record Registry : Type := mkRegistry {
  reg_fetchTasks : Result (list Task);
  reg_executeTask : Task -> Result unit;
  reg_taskExecutions : list Task
}.

Definition toTaskInfo (task : Task) : TaskInfo :=
  {| info_name := task_name task;
     info_source := task_source task;
     info_group := Some (Js.orElse (task_groupKind task) "none");
     info_scope := getScopeString (default Workspace (task_scope task));
     info_definition := task_definition task;
     info_execution := getExecutionInfo task;
     info_isBackground := Some (task_isBackground task);
     info_problemMatchers := Some (task_problemMatchers task) |}.

Definition getAllTasks (reg : Registry) : Result (list TaskInfo) :=
  tryCatch
    (tasks ← reg_fetchTasks reg;
     Ok (List.map toTaskInfo tasks))
    (fun e => Throw (Js.JsError ("Failed to fetch tasks: " +:+ Js.messageOr "Unknown error" e))).

(** How the promise returned by [executeTask] has settled. *)
Inductive Settlement : Type :=
| Resolved (result : TaskExecutionResult)
| Rejected (e : Js.Thrown).

(** One pending call of [executeTask]: what its closures captured
    ([taskId], [taskName], [startTime]), whether a [checkCompletion] timer
    and the five-minute timer are armed, and the state of its promise. *)
Record Call : Type := mkCall {
  call_taskId : string;
  call_taskName : string;
  call_startTime : Z;
  call_polling : bool;
  call_timer : bool;
  call_settled : option Settlement
}.

(** [resolve] and [reject] act on a pending promise only. *)
Definition settle (s : Settlement) (settled : option Settlement) : option Settlement :=
  match settled with
  | Some s0 => Some s0
  | None => Some s
  end.

(** The synchronous part of [executeTask], up to the creation of the
    promise: both timers are armed and the promise is pending. *)
Definition executeTask (reg : Registry) (name : string) (source : option string)
    (now : Z) : Result Call :=
  tryCatch
    (tasks ← reg_fetchTasks reg;
     let targetTask := List.find (fun task => String.eqb (task_name task) name) tasks in
     let targetTask :=
       match targetTask, source with
       | None, Some src =>
           if Js.truthy src
           then List.find (fun task => String.eqb (task_name task) name
                                       && String.eqb (task_source task) src) tasks
           else targetTask
       | _, _ => targetTask
       end in
     match targetTask with
     | None =>
         let availableTasks :=
           Js.join ", " (List.map (fun t => task_source t +:+ ":" +:+ task_name t) tasks) in
         Throw (Js.JsError ("Task '" +:+ name +:+ "' not found. Available tasks: "
                            +:+ availableTasks))
     | Some targetTask =>
         let startTime := now in
         _ ← reg_executeTask reg targetTask;
         let taskId := getTaskId targetTask in
         Ok {| call_taskId := taskId;
               call_taskName := name;
               call_startTime := startTime;
               call_polling := true;
               call_timer := true;
               call_settled := None |}
     end)
    (fun e => Throw (Js.JsError ("Failed to execute task '" +:+ name +:+ "': "
                                 +:+ Js.messageOr "Unknown error" e))).

(** One run of the [checkCompletion] closure at time [now]. *)
Definition checkCompletion (p : TaskProvider) (c : Call) (now : Z)
  : TaskProvider * Call :=
  let taskId := call_taskId c in
  match executionResults p !! taskId with
  | Some result =>
      ({| taskExecutions := taskExecutions p;
          executionResults := delete taskId (executionResults p) |},
       {| call_taskId := taskId;
          call_taskName := call_taskName c;
          call_startTime := call_startTime c;
          call_polling := false;
          call_timer := call_timer c;
          call_settled := settle (Resolved result) (call_settled c) |})
  | None =>
      if JsMap.has taskId (taskExecutions p)
      then (p, c)
      else
        (p,
         {| call_taskId := taskId;
            call_taskName := call_taskName c;
            call_startTime := call_startTime c;
            call_polling := false;
            call_timer := call_timer c;
            call_settled :=
              settle (Resolved {| taskName := call_taskName c;
                                  exitCode := None;
                                  success := true;
                                  output := None;
                                  error := None;
                                  duration := now - call_startTime c |})
                     (call_settled c) |})
  end.

(** The callback of the five-minute timer. *)
Definition timeoutFired (p : TaskProvider) (c : Call) : Call :=
  let taskId := call_taskId c in
  {| call_taskId := taskId;
     call_taskName := call_taskName c;
     call_startTime := call_startTime c;
     call_polling := call_polling c;
     call_timer := false;
     call_settled :=
       if JsMap.has taskId (taskExecutions p)
       then settle (Rejected (Js.JsError ("Task '" +:+ call_taskName c
                                          +:+ "' timed out after 5 minutes")))
                   (call_settled c)
       else call_settled c |}.

(** [getRunningTasks]: one record per entry of [vscode.tasks.taskExecutions]. *)
Definition getRunningTasks (reg : Registry) : list TaskInfo :=
  List.map
    (fun task =>
       {| info_name := task_name task;
          info_source := task_source task;
          info_group := Some (Js.orElse (task_groupKind task) "none");
          info_scope := getScopeString (default Workspace (task_scope task));
          info_definition := task_definition task;
          info_execution := getExecutionInfo task;
          info_isBackground := Some (task_isBackground task);
          info_problemMatchers := None |})
    (reg_taskExecutions reg).

(** [terminateTask]: the boolean it returns and the execution whose
    [terminate()] it called, if any.  The [throw] for a missing execution
    is caught by the method's own [catch]. *)
Definition terminateTask (p : TaskProvider) (name : string) : bool * option Task :=
  let body : Result (bool * option Task) :=
    match List.find (fun exec => String.eqb (task_name exec) name)
                    (JsMap.values (taskExecutions p)) with
    | None => Throw (Js.JsError ("No running task found with name: " +:+ name))
    | Some execution => Ok (true, Some execution)
    end in
  match body with
  | Ok r => r
  | Throw _ => (false, None)
  end.

(** ** The event loop around the tracker

    The extension host runs one callback at a time.  A [World] is the
    tracker, the calls of [executeTask] made so far and the executions
    whose termination was requested. *)
Record World : Type := mkWorld {
  provider : TaskProvider;
  calls : list Call;
  terminated : list Task
}.

Definition newWorld : World :=
  {| provider := newTaskProvider; calls := []; terminated := [] |}.

Inductive Event : Type :=
| DidStartTask (task : Task)
| DidEndTask (task : Task) (now0 now1 : Z)
| DidEndTaskProcess (task : Task) (code : option Z)
| CheckCompletion (i : nat) (now : Z)
| TimeoutFired (i : nat).

Definition withProvider (w : World) (p : TaskProvider) : World :=
  {| provider := p; calls := calls w; terminated := terminated w |}.

(** One callback.  A timer callback runs only while its timer is armed. *)
Definition step (w : World) (ev : Event) : World :=
  match ev with
  | DidStartTask task => withProvider w (onDidStartTask (provider w) task)
  | DidEndTask task now0 now1 => withProvider w (onDidEndTask (provider w) task now0 now1)
  | DidEndTaskProcess task code => withProvider w (onDidEndTaskProcess (provider w) task code)
  | CheckCompletion i now =>
      match calls w !! i with
      | Some c =>
          if call_polling c
          then let '(p', c') := checkCompletion (provider w) c now in
               {| provider := p'; calls := <[i := c']> (calls w); terminated := terminated w |}
          else w
      | None => w
      end
  | TimeoutFired i =>
      match calls w !! i with
      | Some c =>
          if call_timer c
          then {| provider := provider w;
                  calls := <[i := timeoutFired (provider w) c]> (calls w);
                  terminated := terminated w |}
          else w
      | None => w
      end
  end.

Definition run (w : World) (evs : list Event) : World := fold_left step evs w.

(** A call of [executeTask] from the event loop: on success the new call is
    appended and its index is returned. *)
Definition beginExecute (reg : Registry) (w : World) (name : string)
    (source : option string) (now : Z) : Result nat * World :=
  match executeTask reg name source now with
  | Ok c =>
      (Ok (length (calls w)),
       {| provider := provider w; calls := (calls w ++ [c])%list; terminated := terminated w |})
  | Throw e => (Throw e, w)
  end.

(** ** The tool operations ([out/mcpTools.js]) *)

Definition nl : string := String (ascii_of_nat 10) EmptyString.

(** [toolCall.arguments]: every property is a string or absent. *)
Record Args : Type := mkArgs {
  arg_filter : option string;
  arg_taskName : option string;
  arg_source : option string
}.

(** The empty object [{}]. *)
Definition noArgs : Args :=
  {| arg_filter := None; arg_taskName := None; arg_source := None |}.

Record ToolCall : Type := mkToolCall {
  tool_name : string;
  tool_arguments : Args
}.

Definition executionTypeName (ty : ExecutionType) : string :=
  match ty with
  | shell => "shell"
  | process => "process"
  | custom => "custom"
  end.

(** What an [async] handler has done when control returns to the event
    loop: it returned an [Outcome], or it is suspended on the promise of
    the call with the given index. *)
Inductive Pending : Type :=
| Returned (o : Outcome)
| Awaits (i : nat).

Module MCPTools.

(** The predicate handed to [tasks.filter] in [listTasks]; [filter] is the
    lower-cased filter string. *)
Definition matchesFilter {L : Js.Lowering} (filter : string) (task : TaskInfo) : bool :=
  Js.includes (Js.toLowerCase (info_name task)) filter
  || Js.includes (Js.toLowerCase (info_source task)) filter
  || match info_group task with
     | Some g => Js.truthy g && Js.includes (Js.toLowerCase g) filter
     | None => false
     end.

(** [filteredTasks] of [listTasks]. *)
Definition filterTasks {L : Js.Lowering}
    (filter : option string) (tasks : list TaskInfo) : list TaskInfo :=
  match filter with
  | Some f =>
      if Js.truthy f
      then let filter := Js.toLowerCase f in List.filter (matchesFilter filter) tasks
      else tasks
  | None => tasks
  end.

Definition listTasksLine (task : TaskInfo) : string :=
  let executionInfo :=
    match info_execution task with
    | Some e => nl +:+ "  Execution: " +:+ executionTypeName (exec_type e) +:+ " - "
                +:+ Js.orElse (exec_command e) "custom"
    | None => ""
    end in
  let groupInfo :=
    match info_group task with
    | Some g => if String.eqb g "none" then "" else nl +:+ "  Group: " +:+ g
    | None => nl +:+ "  Group: undefined"
    end in
  let scopeInfo := nl +:+ "  Scope: " +:+ info_scope task in
  let backgroundInfo :=
    match info_isBackground task with
    | Some true => nl +:+ "  Background: true"
    | _ => ""
    end in
  "• " +:+ info_name task +:+ " (" +:+ info_source task +:+ ")"
  +:+ executionInfo +:+ groupInfo +:+ scopeInfo +:+ backgroundInfo.

Definition listTasks {L : Js.Lowering} (reg : Registry) (args : Args) : Result Outcome :=
  tasks ← getAllTasks reg;
  let filteredTasks := filterTasks (arg_filter args) tasks in
  let taskList := Js.join nl (List.map listTasksLine filteredTasks) in
  let summary :=
    "Found " +:+ Js.ofNat (length filteredTasks) +:+ " tasks"
    +:+ (match arg_filter args with
         | Some f => if Js.truthy f then " matching filter '" +:+ f +:+ "'" else ""
         | None => ""
         end)
    +:+ ":" +:+ nl +:+ nl +:+ taskList in
  Ok {| text := summary; isError := false |}.

(** [MCPTools.executeTask] up to its [await]. *)
Definition executeTask (reg : Registry) (w : World) (args : Args) (now : Z)
  : Result Pending * World :=
  match arg_taskName args with
  | Some name =>
      if Js.truthy name
      then match beginExecute reg w name (arg_source args) now with
           | (Ok i, w') => (Ok (Awaits i), w')
           | (Throw e, w') => (Throw e, w')
           end
      else (Throw (Js.JsError "taskName is required"), w)
  | None => (Throw (Js.JsError "taskName is required"), w)
  end.

(** [MCPTools.executeTask] after its [await]: a rejection is thrown on, a
    result is rendered. *)
Definition executeTaskResume (s : Settlement) : Result Outcome :=
  match s with
  | Rejected e => Throw e
  | Resolved result =>
      let statusText := if success result then "SUCCESS" else "FAILED" in
      let exitCodeText :=
        match exitCode result with
        | Some c => " (exit code: " +:+ Js.ofZ c +:+ ")"
        | None => ""
        end in
      let durationText := "Duration: " +:+ Js.ofZ (duration result) +:+ "ms" in
      let outputText :=
        if Js.truthyOpt (output result)
        then nl +:+ "Output:" +:+ nl +:+ Js.orElse (output result) "" else "" in
      let errorText :=
        if Js.truthyOpt (error result)
        then nl +:+ "Error:" +:+ nl +:+ Js.orElse (error result) "" else "" in
      let responseText :=
        "Task '" +:+ taskName result +:+ "' execution " +:+ statusText +:+ exitCodeText
        +:+ nl +:+ durationText +:+ outputText +:+ errorText in
      Ok {| text := responseText; isError := negb (success result) |}
  end.

Definition runningTaskLine (task : TaskInfo) : string :=
  let executionInfo :=
    match info_execution task with
    | Some e => " - " +:+ executionTypeName (exec_type e) +:+ ": "
                +:+ Js.orElse (exec_command e) "custom"
    | None => ""
    end in
  "• " +:+ info_name task +:+ " (" +:+ info_source task +:+ ")" +:+ executionInfo.

(** [runningTasks] is what [this.taskProvider.getRunningTasks()] returns. *)
Definition getRunningTasks (reg : Registry) : Result Outcome :=
  let runningTasks := getRunningTasks reg in
  if Nat.eqb (length runningTasks) 0
  then Ok {| text := "No tasks are currently running."; isError := false |}
  else
    let taskList := Js.join nl (List.map runningTaskLine runningTasks) in
    Ok {| text := "Currently running tasks (" +:+ Js.ofNat (length runningTasks) +:+ "):"
                  +:+ nl +:+ nl +:+ taskList;
          isError := false |}.

(** [success] is what [this.taskProvider.terminateTask(args.taskName)]
    returns; the execution it terminated, if any, is recorded in the world. *)
Definition terminateTask (w : World) (args : Args) : Result Outcome * World :=
  match arg_taskName args with
  | Some name =>
      if Js.truthy name
      then
        let '(success, request) := terminateTask (provider w) name in
        let responseText :=
          if success
          then "Task '" +:+ name +:+ "' has been terminated successfully."
          else "Failed to terminate task '" +:+ name
               +:+ "'. Task may not be running or termination failed." in
        (Ok {| text := responseText; isError := negb success |},
         {| provider := provider w;
            calls := calls w;
            terminated := (terminated w ++ match request with Some e => [e] | None => [] end)%list |})
      else (Throw (Js.JsError "taskName is required"), w)
  | None => (Throw (Js.JsError "taskName is required"), w)
  end.

(** The descriptor lookup of [getTaskDetails]. *)
Definition findTaskInfo (tasks : list TaskInfo) (name : string) (source : option string)
  : option TaskInfo :=
  let targetTask := List.find (fun task => String.eqb (info_name task) name) tasks in
  match targetTask, source with
  | None, Some src =>
      if Js.truthy src
      then List.find (fun task => String.eqb (info_name task) name
                                  && String.eqb (info_source task) src) tasks
      else targetTask
  | _, _ => targetTask
  end.

Definition taskDetails (targetTask : TaskInfo) : list string :=
  let details :=
    [ "Task Details for '" +:+ info_name targetTask +:+ "':";
      "Source: " +:+ info_source targetTask;
      "Group: " +:+ Js.orElse (info_group targetTask) "none";
      "Scope: " +:+ info_scope targetTask;
      "Background: " +:+ Js.ofBool (default false (info_isBackground targetTask)) ] in
  let details :=
    match info_execution targetTask with
    | Some e =>
        (details ++ [ "Execution Type: " +:+ executionTypeName (exec_type e) ]
         ++ (if Js.truthyOpt (exec_command e)
             then [ "Command: " +:+ Js.orElse (exec_command e) "" ] else [])
         ++ (match exec_args e with
             | Some (a :: l) => [ "Arguments: " +:+ Js.join " " (a :: l) ]
             | _ => []
             end))%list
    | None => details
    end in
  let details :=
    match info_problemMatchers targetTask with
    | Some (m :: l) => (details ++ [ "Problem Matchers: " +:+ Js.join ", " (m :: l) ])%list
    | _ => details
    end in
  (details ++ [ "Definition: " +:+ info_definition targetTask ])%list.

Definition getTaskDetails (reg : Registry) (args : Args) : Result Outcome :=
  match arg_taskName args with
  | Some name =>
      if Js.truthy name
      then
        tasks ← getAllTasks reg;
        match findTaskInfo tasks name (arg_source args) with
        | None => Ok {| text := "Task '" +:+ name +:+ "' not found."; isError := true |}
        | Some targetTask =>
            Ok {| text := Js.join nl (taskDetails targetTask); isError := false |}
        end
      else Throw (Js.JsError "taskName is required")
  | None => Throw (Js.JsError "taskName is required")
  end.

(** The [switch] of [executeTool]. *)
Definition switchTool {L : Js.Lowering}
    (reg : Registry) (w : World) (toolCall : ToolCall) (now : Z)
  : Result Pending * World :=
  let name := tool_name toolCall in
  let args := tool_arguments toolCall in
  if String.eqb name "list_tasks" then (Returned <$> listTasks reg args, w)
  else if String.eqb name "execute_task" then executeTask reg w args now
  else if String.eqb name "get_running_tasks" then (Returned <$> getRunningTasks reg, w)
  else if String.eqb name "terminate_task"
       then let '(r, w') := terminateTask w args in (Returned <$> r, w')
  else if String.eqb name "get_task_details" then (Returned <$> getTaskDetails reg args, w)
  else (Throw (Js.JsError ("Unknown tool: " +:+ name)), w).

(** The [catch] clause of [executeTool]. *)
Definition toolError (name : string) (e : Js.Thrown) : Outcome :=
  {| text := "Error executing tool '" +:+ name +:+ "': " +:+ Js.messageOr "Unknown error" e;
     isError := true |}.

(** [executeTool] up to the first suspension. *)
Definition executeTool {L : Js.Lowering}
    (reg : Registry) (w : World) (toolCall : ToolCall) (now : Z)
  : Pending * World :=
  match switchTool reg w toolCall now with
  | (Ok pending, w') => (pending, w')
  | (Throw e, w') => (Returned (toolError (tool_name toolCall) e), w')
  end.

(** [executeTool] for [execute_task] once the awaited promise has settled. *)
Definition executeToolResume (name : string) (s : Settlement) : Outcome :=
  match executeTaskResume s with
  | Ok o => o
  | Throw e => toolError name e
  end.

End MCPTools.

(** ** The dispatcher ([handleToolsCall] of the WebSocket server) *)

Record Params : Type := mkParams {
  param_name : option string;
  param_arguments : option Args
}.

(** A [Throw] here leaves [handleToolsCall] and is answered by
    [handleMessage] with a JSON-RPC error. *)
Definition handleToolsCall {L : Js.Lowering}
    (reg : Registry) (w : World) (params : option Params) (now : Z)
  : Result Pending * World :=
  match params with
  | Some ps =>
      match param_name ps with
      | Some name =>
          if Js.truthy name
          then
            let toolCall :=
              {| tool_name := name;
                 tool_arguments := default noArgs (param_arguments ps) |} in
            let '(result, w') := MCPTools.executeTool reg w toolCall now in
            (Ok result, w')
          else (Throw (Js.JsError "Tool name is required"), w)
      | None => (Throw (Js.JsError "Tool name is required"), w)
      end
  | None => (Throw (Js.JsError "Tool name is required"), w)
  end.

(** ** Specification-side notions for the filter of [listTasks] *)

(** The same character, or the same letter [A]-[Z] in its two cases. *)
Definition sameLetter (a b : ascii) : bool :=
  let m := nat_of_ascii a in
  let n := nat_of_ascii b in
  (Nat.eqb m n
   || (Nat.leb 65 m && Nat.leb m 90 && Nat.eqb n (m + 32))
   || (Nat.leb 65 n && Nat.leb n 90 && Nat.eqb m (n + 32)))%bool.

(** [s] and [t] are the same text when the case of letters is ignored. *)
Fixpoint equalIgnoringCase (s t : string) : bool :=
  match s, t with
  | EmptyString, EmptyString => true
  | String a s', String b t' => (sameLetter a b && equalIgnoringCase s' t')%bool
  | _, _ => false
  end.

(** [s] contains [f] when case is ignored: a contiguous part of [s] is
    [f] up to the case of its letters. *)
Definition containsIgnoringCase (f s : string) : Prop :=
  exists pre part post : string,
    s = pre +:+ part +:+ post /\ equalIgnoringCase part f = true.

(** The name, the source or the group of [task] contains [f] when case is
    ignored. *)
Definition matchesSpec (f : string) (task : TaskInfo) : Prop :=
  containsIgnoringCase f (info_name task)
  \/ containsIgnoringCase f (info_source task)
  \/ exists g, info_group task = Some g /\ containsIgnoringCase f g.

(** The lower-cased [s] contains the lower-cased [f]. *)
Definition containsLowerCased {L : Js.Lowering} (f s : string) : Prop :=
  exists pre post : string, Js.toLowerCase s = pre +:+ Js.toLowerCase f +:+ post.

(** The lower-cased name, source or group of [task] contains the
    lower-cased [f]. *)
Definition matchesLowerCased {L : Js.Lowering} (f : string) (task : TaskInfo) : Prop :=
  containsLowerCased f (info_name task)
  \/ containsLowerCased f (info_source task)
  \/ exists g, info_group task = Some g /\ containsLowerCased f g.

(** The name, the source and the group of [task] are ASCII text. *)
Definition asciiTask (task : TaskInfo) : bool :=
  Js.isAscii (info_name task)
  && Js.isAscii (info_source task)
  && match info_group task with
     | Some g => Js.isAscii g
     | None => true
     end.

(** [enumerate(filter?)] seen from outside: the answer of [listTasks]
    that presents the descriptors [kept], with their count and, when
    there is one, the filter. *)
Definition listing (filter : option string) (kept : list TaskInfo) : Outcome :=
  {| text :=
       "Found " +:+ Js.ofNat (length kept) +:+ " tasks"
       +:+ (match filter with
            | Some f => if Js.truthy f then " matching filter '" +:+ f +:+ "'" else ""
            | None => ""
            end)
       +:+ ":" +:+ nl +:+ nl +:+ Js.join nl (List.map MCPTools.listTasksLine kept);
     isError := false |}.

(** The arguments [{ filter: f }]. *)
Definition filterArgs (f : string) : Args :=
  {| arg_filter := Some f; arg_taskName := None; arg_source := None |}.

(** ** Events that complete a run *)

(** The task id whose run an end or process-exit event reports. *)
Definition completionOf (ev : Event) : option string :=
  match ev with
  | DidEndTask task _ _ => Some (getTaskId task)
  | DidEndTaskProcess task _ => Some (getTaskId task)
  | _ => None
  end.


(** The rejection of the five-minute timer. *)
Definition timeoutError (name : string) : Js.Thrown :=
  Js.JsError ("Task '" +:+ name +:+ "' timed out after 5 minutes").

(** The result synthesized by [checkCompletion] when the task id is
    neither buffered nor active. *)
Definition fallbackResult (c : Call) (now : Z) : TaskExecutionResult :=
  {| taskName := call_taskName c;
     exitCode := None;
     success := true;
     output := None;
     error := None;
     duration := now - call_startTime c |}.

(** Call [i] is the pending call [c], its task id is active and nothing
    is buffered under it. *)
Definition waiting (i : nat) (c : Call) (w : World) : Prop :=
  calls w !! i = Some c
  /\ JsMap.has (call_taskId c) (taskExecutions (provider w)) = true
  /\ executionResults (provider w) !! call_taskId c = None.


(** ** Sample registry used by the examples *)

Definition sampleTask (name source : string) : Task :=
  {| task_name := name;
     task_source := source;
     task_groupKind := None;
     task_scope := Some Workspace;
     task_definition := "{}";
     task_execution := None;
     task_isBackground := false;
     task_problemMatchers := [] |}.

Definition npmBuild : Task := sampleTask "build" "npm".
Definition gruntBuild : Task := sampleTask "build" "grunt".

Definition sampleRegistry : Registry :=
  {| reg_fetchTasks := Ok [npmBuild; gruntBuild];
     reg_executeTask := fun _ => Ok tt;
     reg_taskExecutions := [] |}.

Definition taskNameArgs (name : string) (source : option string) : Args :=
  {| arg_filter := None; arg_taskName := Some name; arg_source := source |}.

(** ** Lower-casings used by the examples

    The examples need some [toLowerCase] to run with. [asciiToLowerCase]
    is the engine's function on ASCII text; the examples that use it hold
    ASCII text only. [greekToLowerCase] is the engine's function on text
    made of ASCII characters and the Greek capitals [Α] (U+0391) and [Σ]
    (U+03A3), in UTF-8: [Α] becomes [α], and [Σ] becomes [ς] where
    Unicode's Final_Sigma condition holds (a cased letter before it,
    none after it, characters that are Case_Ignorable skipped) and [σ]
    elsewhere. *)

Definition asciiLowering : Js.Lowering :=
  {| Js.toLowerCase := Js.asciiToLowerCase;
     Js.toLowerCase_ascii := fun s _ => eq_refl;
     Js.toLowerCase_truthy :=
       fun s => match s with
                | EmptyString => eq_refl
                | String _ _ => eq_refl
                end |}.

Definition asciiLetter (c : ascii) : bool :=
  let n := nat_of_ascii c in
  (Nat.leb 65 n && Nat.leb n 90 || Nat.leb 97 n && Nat.leb n 122)%bool.

(** The ASCII characters with the property Case_Ignorable: the apostrophe,
    the full stop, the colon, the circumflex and the grave accent. *)
Definition caseIgnorable (c : ascii) : bool :=
  let n := nat_of_ascii c in
  (Nat.eqb n 39 || Nat.eqb n 46 || Nat.eqb n 58 || Nat.eqb n 94 || Nat.eqb n 96)%bool.

Definition isByte (n : nat) (c : ascii) : bool := Nat.eqb (nat_of_ascii c) n.

(** [s] starts, after case-ignorable characters, with a cased letter. *)
Fixpoint beforeCased (s : string) : bool :=
  match s with
  | EmptyString => false
  | String c s' =>
      if asciiLetter c then true
      else if caseIgnorable c then beforeCased s'
      else match s' with
           | String d _ => (isByte 206 c && (isByte 145 d || isByte 163 d))%bool
           | EmptyString => false
           end
  end.

(** [afterCased]: the text before [s] ends, before case-ignorable
    characters, with a cased letter. *)
Fixpoint greekLower (afterCased : bool) (s : string) {struct s} : string :=
  match s with
  | EmptyString => EmptyString
  | String c s' =>
      match s' with
      | String d rest =>
          if (isByte 206 c && isByte 145 d)%bool
          then String (ascii_of_nat 206) (String (ascii_of_nat 177) (greekLower true rest))
          else if (isByte 206 c && isByte 163 d)%bool
          then String (ascii_of_nat 207)
                 (String (if (afterCased && negb (beforeCased rest))%bool
                          then ascii_of_nat 130 else ascii_of_nat 131)
                    (greekLower true rest))
          else String (Js.asciiLower c)
                 (greekLower (asciiLetter c || caseIgnorable c && afterCased)%bool s')
      | EmptyString => String (Js.asciiLower c) EmptyString
      end
  end.

Definition greekToLowerCase (s : string) : string := greekLower false s.

(** [greekToLowerCase] has the two properties asked of a lower-casing:
    no ASCII character is the byte 206 that starts a Greek capital, and a
    non-empty string is lower-cased to a non-empty one. *)
Definition greekLowering : Js.Lowering.
Proof.
  refine {| Js.toLowerCase := greekToLowerCase |}.
  - unfold greekToLowerCase. generalize false. intros b s. revert b.
    induction s as [|c s IH]; intros b H; [reflexivity|].
    cbn [Js.isAscii] in H. apply andb_true_iff in H as [Hc Hs].
    assert (Hbyte : isByte 206 c = false).
    { unfold isByte. apply Nat.ltb_lt in Hc. apply Nat.eqb_neq. lia. }
    transitivity (String (Js.asciiLower c)
                    (greekLower (asciiLetter c || caseIgnorable c && b) s)).
    + cbn [greekLower]. destruct s as [|d rest]; [reflexivity|].
      rewrite Hbyte. reflexivity.
    + cbn [Js.asciiToLowerCase]. f_equal. now apply IH.
  - intros s. unfold greekToLowerCase.
    destruct s as [|c [|d rest]]; [reflexivity | reflexivity |].
    cbn [greekLower].
    destruct (isByte 206 c && isByte 145 d); [reflexivity|].
    destruct (isByte 206 c && isByte 163 d); reflexivity.
Defined.

(** A registry with the single task [ΑΣ]. *)
Definition greekRegistry : Registry :=
  {| reg_fetchTasks := Ok [sampleTask "ΑΣ" "npm"];
     reg_executeTask := fun _ => Ok tt;
     reg_taskExecutions := [] |}.

(** ** The advertised tools ([getAvailableTools]) *)

Record ToolProperty : Type := mkToolProperty {
  prop_name : string;
  prop_type : string;
  prop_description : string
}.

(** One entry of [getAvailableTools]; [spec_required] is [None] where the
    schema has no [required] key. *)
Record ToolSpec : Type := mkToolSpec {
  spec_name : string;
  spec_description : string;
  spec_properties : list ToolProperty;
  spec_required : option (list string)
}.

Definition getAvailableTools : list ToolSpec :=
  [ {| spec_name := "list_tasks";
       spec_description := "List all available VSCode tasks in the workspace";
       spec_properties :=
         [ {| prop_name := "filter"; prop_type := "string";
              prop_description := "Optional filter to match task names or sources" |} ];
       spec_required := None |};
    {| spec_name := "execute_task";
       spec_description := "Execute a specific VSCode task by name";
       spec_properties :=
         [ {| prop_name := "taskName"; prop_type := "string";
              prop_description := "Name of the task to execute" |};
           {| prop_name := "source"; prop_type := "string";
              prop_description := "Optional source of the task (e.g., npm, grunt, workspace)" |} ];
       spec_required := Some ["taskName"] |};
    {| spec_name := "get_running_tasks";
       spec_description := "Get a list of currently running tasks";
       spec_properties := [];
       spec_required := None |};
    {| spec_name := "terminate_task";
       spec_description := "Terminate a running task by name";
       spec_properties :=
         [ {| prop_name := "taskName"; prop_type := "string";
              prop_description := "Name of the task to terminate" |} ];
       spec_required := Some ["taskName"] |};
    {| spec_name := "get_task_details";
       spec_description := "Get detailed information about a specific task";
       spec_properties :=
         [ {| prop_name := "taskName"; prop_type := "string";
              prop_description := "Name of the task to get details for" |};
           {| prop_name := "source"; prop_type := "string";
              prop_description := "Optional source of the task" |} ];
       spec_required := Some ["taskName"] |} ].

(** The names a schema lists under [required]. *)
Definition requiredOf (spec : ToolSpec) : list string := default [] (spec_required spec).

(** ** JSON-RPC requests of the WebSocket server ([out/mcpServer.js]) *)

(** The [id] of a JSON-RPC message. *)
Inductive JsonId : Type :=
| IdNumber (n : Z)
| IdString (s : string)
| IdNull.

(** A parsed client message: [rpc_id] is [None] when the object has no
    [id] property, [rpc_method] is [None] when it has no [method]. *)
Record RpcMessage : Type := mkRpcMessage {
  rpc_id : option JsonId;
  rpc_method : option string;
  rpc_params : option Params
}.

Inductive RpcResult : Type :=
| InitializeResult (protocolVersion serverName serverVersion : string)
| ToolsListResult (tools : list ToolSpec)
| ToolCallResult (o : Outcome)
| PongResult.

(** What [handleRequest] has done when control returns to the event loop:
    it returned a result, or it awaits the promise of call [i] inside
    [executeTool] for the tool [toolName]. *)
Inductive RpcPending : Type :=
| RpcDone (r : RpcResult)
| RpcAwaits (i : nat) (toolName : string).

Inductive Outgoing : Type :=
| ResponseMessage (id : option JsonId) (result : RpcResult)
| ErrorMessage (id : JsonId) (code : Z) (message : string).

Definition handleInitialize : RpcResult :=
  InitializeResult "2024-11-05" "VSCode MCP Task Server" "1.0.0".

Definition handleToolsList : RpcResult := ToolsListResult getAvailableTools.

(** [`${request.method}`] *)
Definition methodTemplate (method : option string) : string := default "undefined" method.

Definition handleRequest {L : Js.Lowering}
    (reg : Registry) (w : World) (request : RpcMessage) (now : Z)
  : Result RpcPending * World :=
  match rpc_method request with
  | Some method =>
      if String.eqb method "initialize" then (Ok (RpcDone handleInitialize), w)
      else if String.eqb method "tools/list" then (Ok (RpcDone handleToolsList), w)
      else if String.eqb method "tools/call"
      then match handleToolsCall reg w (rpc_params request) now with
           | (Ok (Returned o), w') => (Ok (RpcDone (ToolCallResult o)), w')
           | (Ok (Awaits i), w') =>
               (Ok (RpcAwaits i (default "" (rpc_params request ≫= param_name))), w')
           | (Throw e, w') => (Throw e, w')
           end
      else if String.eqb method "ping" then (Ok (RpcDone PongResult), w)
      else (Throw (Js.JsError ("Unknown method: " +:+ method)), w)
  | None => (Throw (Js.JsError ("Unknown method: " +:+ methodTemplate None)), w)
  end.

(** [id || 0] in [sendError]. *)
Definition idOrZero (id : option JsonId) : JsonId :=
  match id with
  | Some (IdNumber n) => if n =? 0 then IdNumber 0 else IdNumber n
  | Some (IdString s) => if Js.truthy s then IdString s else IdNumber 0
  | Some IdNull => IdNumber 0
  | None => IdNumber 0
  end.

(** [sendMessage]: the message goes out only on an open socket. *)
Definition sendMessage (wsOpen : bool) (message : Outgoing) : list Outgoing :=
  if wsOpen then [message] else [].

Definition sendResponse (wsOpen : bool) (id : option JsonId) (result : RpcResult)
  : list Outgoing :=
  sendMessage wsOpen (ResponseMessage id result).

Definition sendError (wsOpen : bool) (id : option JsonId) (code : Z) (message : string)
  : list Outgoing :=
  sendMessage wsOpen (ErrorMessage (idOrZero id) code message).

(** What [handleMessage] has sent when control returns to the event loop,
    or the call whose promise it awaits before it answers request [id]. *)
Inductive Reply : Type :=
| Sent (out : list Outgoing)
| AwaitingCall (i : nat) (id : option JsonId) (toolName : string).

Definition handleMessage {L : Js.Lowering} (reg : Registry) (w : World) (wsOpen : bool)
    (message : RpcMessage) (now : Z) : Reply * World :=
  match rpc_id message with
  | None => (Sent [], w)
  | Some id =>
      match handleRequest reg w message now with
      | (Ok (RpcDone result), w') => (Sent (sendResponse wsOpen (Some id) result), w')
      | (Ok (RpcAwaits i toolName), w') => (AwaitingCall i (Some id) toolName, w')
      | (Throw e, w') =>
          (Sent (sendError wsOpen (Some id) (-32603) (Js.messageOr "Internal error" e)), w')
      end
  end.

(** [handleMessage] once the promise awaited inside [executeTool] has settled. *)
Definition handleMessageResume (wsOpen : bool) (id : option JsonId) (toolName : string)
    (s : Settlement) : list Outgoing :=
  sendResponse wsOpen id (ToolCallResult (MCPTools.executeToolResume toolName s)).

(** The [message] listener of a client socket; [data] is [None] when
    [JSON.parse] fails or its value is not an object. *)
Definition onMessage {L : Js.Lowering} (reg : Registry) (w : World) (wsOpen : bool)
    (data : option RpcMessage) (now : Z) : Reply * World :=
  match data with
  | Some message => handleMessage reg w wsOpen message now
  | None => (Sent (sendError wsOpen (Some IdNull) (-32700) "Parse error"), w)
  end.

(** ** The logger ([out/logger.js]) *)

Inductive LogLevel : Type := DEBUG | INFO | WARN | ERROR.

Definition levelName (level : LogLevel) : string :=
  match level with
  | DEBUG => "DEBUG"
  | INFO => "INFO"
  | WARN => "WARN"
  | ERROR => "ERROR"
  end.

(** A log entry; [log_timestamp] is the date as [toISOString] renders it,
    [log_context] the context object as [JSON.stringify] renders it. *)
Record LogEntry : Type := mkLogEntry {
  log_timestamp : string;
  log_level : LogLevel;
  log_message : string;
  log_context : option string
}.

(** The in-memory log and the lines appended to the output channel. *)
Record Logger : Type := mkLogger {
  logs : list LogEntry;
  outputChannel : list string
}.

Definition maxLogs : nat := 1000.

Definition newLogger : Logger := {| logs := []; outputChannel := [] |}.

Definition logLine (entry : LogEntry) : string :=
  let contextStr :=
    match log_context entry with
    | Some c => " | Context: " +:+ c
    | None => ""
    end in
  "[" +:+ log_timestamp entry +:+ "] [" +:+ levelName (log_level entry) +:+ "] "
  +:+ log_message entry +:+ contextStr.

(** [log]: push the entry, drop the oldest one above [maxLogs], append the
    formatted line to the output channel. *)
Definition log (l : Logger) (entry : LogEntry) : Logger :=
  let pushed := (logs l ++ [entry])%list in
  {| logs := if Nat.ltb maxLogs (length pushed) then List.tl pushed else pushed;
     outputChannel := (outputChannel l ++ [logLine entry])%list |}.

Definition getLogs (l : Logger) : list LogEntry := logs l.

Definition clearLogs (l : Logger) : Logger := {| logs := []; outputChannel := [] |}.

Definition logAll (l : Logger) (entries : list LogEntry) : Logger := fold_left log entries l.

(** ** Worlds the extension can reach *)

(** [evolves w0 w]: the extension gets from [w0] to [w] by callbacks of the
    event loop and by tool calls. *)
Inductive evolves {L : Js.Lowering} (w0 : World) : World -> Prop :=
| evolves_here : evolves w0 w0
| evolves_step (w : World) (ev : Event) :
    evolves w0 w -> evolves w0 (step w ev)
| evolves_tool (reg : Registry) (w : World) (toolCall : ToolCall) (now : Z) :
    evolves w0 w -> evolves w0 (snd (MCPTools.executeTool reg w toolCall now)).

(** The worlds reached from a fresh tracker. *)
Definition reachable {L : Js.Lowering} (w : World) : Prop := evolves newWorld w.

(** A result as the tracker builds it: no output, no error text, and a
    success flag that agrees with the exit code when there is one. *)
Definition trackerResult (r : TaskExecutionResult) : Prop :=
  output r = None /\ error r = None
  /\ forall c, exitCode r = Some c -> success r = (c =? 0).

(** How a call can have settled: with a tracker result, or with the
    timeout error of its own task name. *)
Definition wellSettled (c : Call) : Prop :=
  match call_settled c with
  | None => True
  | Some (Resolved r) => trackerResult r
  | Some (Rejected e) => e = timeoutError (call_taskName c)
  end.

Definition worldInvariant (w : World) : Prop :=
  (forall k r, executionResults (provider w) !! k = Some r -> trackerResult r)
  /\ (forall i c, calls w !! i = Some c -> wellSettled c).

(** ** The handlers of the stdio server ([registerTools] of [out/mcpServer.js])

    The server built on the MCP SDK registers one handler per tool. The SDK
    checks the arguments against the schema before it calls a handler, so
    [taskName] is a string and [filter] and [source] are strings or absent.
    Each handler has its own [try]/[catch]. *)

Module StdioServer.

Definition listTasks {L : Js.Lowering} (reg : Registry) (filter : option string) : Outcome :=
  let body : Result Outcome :=
    tasks ← getAllTasks reg;
    let filteredTasks :=
      match filter with
      | Some f =>
          if Js.truthy f
          then
            let filterLower := Js.toLowerCase f in
            List.filter
              (fun task =>
                 Js.includes (Js.toLowerCase (info_name task)) filterLower
                 || Js.includes (Js.toLowerCase (info_source task)) filterLower
                 || match info_group task with
                    | Some g => Js.truthy g && Js.includes (Js.toLowerCase g) filterLower
                    | None => false
                    end)
              tasks
          else tasks
      | None => tasks
      end in
    let taskList :=
      Js.join nl
        (List.map
           (fun task =>
              let executionInfo :=
                match info_execution task with
                | Some e => nl +:+ "  Execution: " +:+ executionTypeName (exec_type e)
                            +:+ " - " +:+ Js.orElse (exec_command e) "custom"
                | None => ""
                end in
              let groupInfo :=
                match info_group task with
                | Some g => if String.eqb g "none" then "" else nl +:+ "  Group: " +:+ g
                | None => nl +:+ "  Group: undefined"
                end in
              let scopeInfo := nl +:+ "  Scope: " +:+ info_scope task in
              let backgroundInfo :=
                match info_isBackground task with
                | Some true => nl +:+ "  Background: true"
                | _ => ""
                end in
              "• " +:+ info_name task +:+ " (" +:+ info_source task +:+ ")"
              +:+ executionInfo +:+ groupInfo +:+ scopeInfo +:+ backgroundInfo)
           filteredTasks) in
    let summary :=
      "Found " +:+ Js.ofNat (length filteredTasks) +:+ " tasks"
      +:+ (match filter with
           | Some f => if Js.truthy f then " matching filter '" +:+ f +:+ "'" else ""
           | None => ""
           end)
      +:+ ":" +:+ nl +:+ nl +:+ taskList in
    Ok {| text := summary; isError := false |} in
  match body with
  | Ok o => o
  | Throw e => {| text := "Error listing tasks: " +:+ Js.messageOr "Unknown error" e;
                  isError := true |}
  end.

(** The [catch] clause of the [execute_task] handler. *)
Definition executeTaskError (name : string) (e : Js.Thrown) : Outcome :=
  {| text := "Error executing task '" +:+ name +:+ "': " +:+ Js.messageOr "Unknown error" e;
     isError := true |}.

(** The [execute_task] handler up to its [await]. *)
Definition executeTask (reg : Registry) (w : World) (name : string)
    (source : option string) (now : Z) : Pending * World :=
  match beginExecute reg w name source now with
  | (Ok i, w') => (Awaits i, w')
  | (Throw e, w') => (Returned (executeTaskError name e), w')
  end.

(** The [execute_task] handler after its [await]. *)
Definition executeTaskResume (name : string) (s : Settlement) : Outcome :=
  match s with
  | Rejected e => executeTaskError name e
  | Resolved result =>
      let statusText := if success result then "SUCCESS" else "FAILED" in
      let exitCodeText :=
        match exitCode result with
        | Some c => " (exit code: " +:+ Js.ofZ c +:+ ")"
        | None => ""
        end in
      let durationText := "Duration: " +:+ Js.ofZ (duration result) +:+ "ms" in
      let outputText :=
        if Js.truthyOpt (output result)
        then nl +:+ "Output:" +:+ nl +:+ Js.orElse (output result) "" else "" in
      let errorText :=
        if Js.truthyOpt (error result)
        then nl +:+ "Error:" +:+ nl +:+ Js.orElse (error result) "" else "" in
      let responseText :=
        "Task '" +:+ taskName result +:+ "' execution " +:+ statusText +:+ exitCodeText
        +:+ nl +:+ durationText +:+ outputText +:+ errorText in
      {| text := responseText; isError := negb (success result) |}
  end.

Definition getRunningTasks (reg : Registry) : Outcome :=
  let runningTasks := getRunningTasks reg in
  if Nat.eqb (length runningTasks) 0
  then {| text := "No tasks are currently running."; isError := false |}
  else
    let taskList :=
      Js.join nl
        (List.map
           (fun task =>
              let executionInfo :=
                match info_execution task with
                | Some e => " - " +:+ executionTypeName (exec_type e) +:+ ": "
                            +:+ Js.orElse (exec_command e) "custom"
                | None => ""
                end in
              "• " +:+ info_name task +:+ " (" +:+ info_source task +:+ ")" +:+ executionInfo)
           runningTasks) in
    {| text := "Currently running tasks (" +:+ Js.ofNat (length runningTasks) +:+ "):"
               +:+ nl +:+ nl +:+ taskList;
       isError := false |}.

Definition terminateTask (w : World) (name : string) : Outcome * World :=
  let '(success, request) := terminateTask (provider w) name in
  let responseText :=
    if success
    then "Task '" +:+ name +:+ "' has been terminated successfully."
    else "Failed to terminate task '" +:+ name
         +:+ "'. Task may not be running or termination failed." in
  ({| text := responseText; isError := negb success |},
   {| provider := provider w;
      calls := calls w;
      terminated := (terminated w ++ match request with Some e => [e] | None => [] end)%list |}).

Definition getTaskDetails (reg : Registry) (name : string) (source : option string)
  : Outcome :=
  let body : Result Outcome :=
    tasks ← getAllTasks reg;
    let targetTask := List.find (fun task => String.eqb (info_name task) name) tasks in
    let targetTask :=
      match targetTask, source with
      | None, Some src =>
          if Js.truthy src
          then List.find (fun task => String.eqb (info_name task) name
                                      && String.eqb (info_source task) src) tasks
          else targetTask
      | _, _ => targetTask
      end in
    match targetTask with
    | None => Ok {| text := "Task '" +:+ name +:+ "' not found."; isError := true |}
    | Some targetTask =>
        let details :=
          [ "Task Details for '" +:+ info_name targetTask +:+ "':";
            "Source: " +:+ info_source targetTask;
            "Group: " +:+ Js.orElse (info_group targetTask) "none";
            "Scope: " +:+ info_scope targetTask;
            "Background: " +:+ Js.ofBool (default false (info_isBackground targetTask)) ] in
        let details :=
          match info_execution targetTask with
          | Some e =>
              (details ++ [ "Execution Type: " +:+ executionTypeName (exec_type e) ]
               ++ (if Js.truthyOpt (exec_command e)
                   then [ "Command: " +:+ Js.orElse (exec_command e) "" ] else [])
               ++ (match exec_args e with
                   | Some (a :: l) => [ "Arguments: " +:+ Js.join " " (a :: l) ]
                   | _ => []
                   end))%list
          | None => details
          end in
        let details :=
          match info_problemMatchers targetTask with
          | Some (m :: l) =>
              (details ++ [ "Problem Matchers: " +:+ Js.join ", " (m :: l) ])%list
          | _ => details
          end in
        let details := (details ++ [ "Definition: " +:+ info_definition targetTask ])%list in
        Ok {| text := Js.join nl details; isError := false |}
    end in
  match body with
  | Ok o => o
  | Throw e =>
      {| text := "Error getting task details for '" +:+ name +:+ "': "
                 +:+ Js.messageOr "Unknown error" e;
         isError := true |}
  end.

End StdioServer.


(** * Properties *)

(** ** Strings *)

Lemma append_cons (x : ascii) (a b : string) : String x a +:+ b = String x (a +:+ b).
Proof. reflexivity. Qed.

Lemma append_nil (b : string) : "" +:+ b = b.
Proof. reflexivity. Qed.

Lemma truthy_true (s : string) : Js.truthy s = true <-> s <> "".
Proof.
  unfold Js.truthy. destruct (String.eqb_spec s ""); simpl; split; congruence.
Qed.

Lemma truthy_false (s : string) : Js.truthy s = false <-> s = "".
Proof.
  unfold Js.truthy. destruct (String.eqb_spec s ""); simpl; split; congruence.
Qed.

Lemma prefix_app (p s : string) :
  String.prefix p s = true <-> exists post, s = p +:+ post.
Proof.
  revert s. induction p as [|a p IH]; intros s.
  - destruct s; simpl; (split; [intros _; eexists; reflexivity | reflexivity]).
  - destruct s as [|b s]; simpl.
    + split; [discriminate | intros [post H]; discriminate].
    + destruct (Ascii.ascii_dec a b) as [->|Hne].
      * rewrite IH. split; intros [post H]; exists post.
        -- simpl. now rewrite H.
        -- simpl in H. now inversion H.
      * split; [discriminate | intros [post H]; simpl in H; inversion H; congruence].
Qed.

Lemma includes_app (s sub : string) :
  Js.includes s sub = true <-> exists pre post, s = pre +:+ sub +:+ post.
Proof.
  induction s as [|a s IH].
  - change (Js.includes "" sub) with (String.prefix sub "" || false)%bool.
    rewrite orb_false_r, prefix_app. split.
    + intros [post H]. exists "", post. exact H.
    + intros [pre [post H]]. destruct pre; simpl in H; [|discriminate].
      exists post. exact H.
  - change (Js.includes (String a s) sub)
      with (String.prefix sub (String a s) || Js.includes s sub)%bool.
    rewrite orb_true_iff, IH, prefix_app. split.
    + intros [[post H] | [pre [post H]]].
      * exists "", post. exact H.
      * exists (String a pre), post. simpl. now rewrite H.
    + intros [pre [post H]]. destruct pre as [|b pre]; simpl in H.
      * left. exists post. exact H.
      * right. inversion H; subst. exists pre, post. reflexivity.
Qed.

Lemma includes_empty (s : string) : Js.includes s "" = true.
Proof. apply includes_app. exists "", s. reflexivity. Qed.

Lemma toLowerCase_nil {L : Js.Lowering} : Js.toLowerCase "" = "".
Proof. apply truthy_false. rewrite Js.toLowerCase_truthy. reflexivity. Qed.

Lemma toLowerCase_empty {L : Js.Lowering} (s : string) : Js.toLowerCase s = "" -> s = "".
Proof.
  intros H. apply truthy_false. rewrite <- Js.toLowerCase_truthy.
  now apply truthy_false.
Qed.

Lemma append_empty (a b : string) : a +:+ b = "" -> a = "" /\ b = "".
Proof. destruct a; simpl; [auto | discriminate]. Qed.

Lemma string_app_assoc (a b c : string) : (a +:+ b) +:+ c = a +:+ b +:+ c.
Proof.
  induction a as [|x a IH]; [reflexivity|].
  rewrite !append_cons. f_equal. exact IH.
Qed.

Lemma includes_append_r (a s sub : string) :
  Js.includes s sub = true -> Js.includes (a +:+ s) sub = true.
Proof.
  rewrite !includes_app. intros [pre [post H]].
  exists (a +:+ pre), post. subst s. symmetry. apply string_app_assoc.
Qed.

Lemma append_empty_r (a : string) : a +:+ "" = a.
Proof. induction a as [|x a IH]; [reflexivity|]. rewrite append_cons. now f_equal. Qed.

Lemma includes_join (sep x : string) (l : list string) :
  In x l -> Js.includes (Js.join sep l) x = true.
Proof.
  induction l as [|y l IH]; [intros []|].
  intros [->|Hin].
  - apply includes_app. exists "". destruct l as [|z l].
    + exists "". cbn [Js.join]. now rewrite append_nil, append_empty_r.
    + exists (sep +:+ Js.join sep (z :: l)). reflexivity.
  - destruct l as [|z l]; [destruct Hin|].
    change (Js.join sep (y :: z :: l)) with (y +:+ sep +:+ Js.join sep (z :: l)).
    apply includes_append_r, includes_append_r, IH, Hin.
Qed.

(** ** The filter of [listTasks] *)

Lemma asciiToLowerCase_app (a b : string) :
  Js.asciiToLowerCase (a +:+ b) = Js.asciiToLowerCase a +:+ Js.asciiToLowerCase b.
Proof.
  induction a as [|x a IH]; [reflexivity|].
  rewrite append_cons. cbn [Js.asciiToLowerCase]. rewrite append_cons. now f_equal.
Qed.

Lemma asciiToLowerCase_app_inv (s p q : string) :
  Js.asciiToLowerCase s = p +:+ q ->
  exists a b, s = a +:+ b /\ Js.asciiToLowerCase a = p /\ Js.asciiToLowerCase b = q.
Proof.
  revert s. induction p as [|x p IH]; intros s H.
  - exists "", s. auto.
  - destruct s as [|c s]; [discriminate|].
    rewrite append_cons in H. cbn [Js.asciiToLowerCase] in H.
    inversion H as [[Hc Hs]].
    destruct (IH s Hs) as (a & b & -> & Ha & Hb).
    exists (String c a), b. split; [reflexivity|]. split; [|exact Hb].
    cbn [Js.asciiToLowerCase]. now rewrite Ha.
Qed.

Lemma sameLetter_spec (a b : ascii) :
  sameLetter a b = true <-> Js.asciiLower a = Js.asciiLower b.
Proof.
  assert (Hall :
    forallb (fun m =>
      forallb (fun n =>
        Bool.eqb (sameLetter (ascii_of_nat m) (ascii_of_nat n))
                 (Ascii.eqb (Js.asciiLower (ascii_of_nat m))
                            (Js.asciiLower (ascii_of_nat n))))
        (List.seq 0 256))
      (List.seq 0 256) = true) by (vm_compute; reflexivity).
  assert (Hin : forall c : ascii, In (nat_of_ascii c) (List.seq 0 256)).
  { intros c. apply in_seq. pose proof (nat_ascii_bounded c). lia. }
  rewrite forallb_forall in Hall. specialize (Hall _ (Hin a)).
  rewrite forallb_forall in Hall. specialize (Hall _ (Hin b)).
  rewrite !ascii_nat_embedding in Hall. apply Bool.eqb_prop in Hall.
  rewrite Hall. apply Ascii.eqb_eq.
Qed.

Lemma equalIgnoringCase_spec (s t : string) :
  equalIgnoringCase s t = true <-> Js.asciiToLowerCase s = Js.asciiToLowerCase t.
Proof.
  revert t. induction s as [|a s IH]; intros [|b t]; cbn [equalIgnoringCase Js.asciiToLowerCase].
  - split; reflexivity.
  - split; discriminate.
  - split; discriminate.
  - rewrite andb_true_iff, sameLetter_spec, IH. split.
    + intros [-> ->]. reflexivity.
    + intros H. inversion H. auto.
Qed.

Lemma equalIgnoringCase_refl (s : string) : equalIgnoringCase s s = true.
Proof. now apply equalIgnoringCase_spec. Qed.

(** On ASCII text the test of [listTasks], made on the lower-cased
    strings, is containment up to the case of letters. *)
Lemma containsIgnoringCase_ascii (f s : string) :
  Js.includes (Js.asciiToLowerCase s) (Js.asciiToLowerCase f) = true
  <-> containsIgnoringCase f s.
Proof.
  rewrite includes_app. unfold containsIgnoringCase. split.
  - intros (pre & post & H).
    apply asciiToLowerCase_app_inv in H as (a & b & -> & Ha & Hb).
    apply asciiToLowerCase_app_inv in Hb as (u & c & -> & Hu & Hc).
    exists a, u, c. split; [reflexivity|]. now apply equalIgnoringCase_spec.
  - intros (pre & part & post & -> & H). apply equalIgnoringCase_spec in H.
    exists (Js.asciiToLowerCase pre), (Js.asciiToLowerCase post).
    now rewrite !asciiToLowerCase_app, H.
Qed.

Lemma containsIgnoringCase_empty (f : string) :
  containsIgnoringCase f "" -> f = "".
Proof.
  intros (pre & part & post & H & Heq). symmetry in H.
  apply append_empty in H as [_ H]. apply append_empty in H as [-> _].
  destruct f; [reflexivity | discriminate].
Qed.

Lemma matchesFilter_lowerCased {L : Js.Lowering} (f : string) (task : TaskInfo) :
  f <> "" ->
  MCPTools.matchesFilter (Js.toLowerCase f) task = true <-> matchesLowerCased f task.
Proof.
  intros Hf. unfold MCPTools.matchesFilter, matchesLowerCased, containsLowerCased.
  rewrite !orb_true_iff, !includes_app.
  assert (Hgroup :
    match info_group task with
    | Some g => Js.truthy g && Js.includes (Js.toLowerCase g) (Js.toLowerCase f)
    | None => false
    end = true
    <-> exists g, info_group task = Some g
                  /\ exists pre post, Js.toLowerCase g = pre +:+ Js.toLowerCase f +:+ post).
  { destruct (info_group task) as [g|].
    - rewrite andb_true_iff, includes_app, truthy_true. split.
      + intros [_ H]. exists g. split; [reflexivity | exact H].
      + intros [g' [Heq H]]. inversion Heq; subst g'. split; [|exact H].
        intros ->. destruct H as [pre [post H]]. rewrite toLowerCase_nil in H.
        symmetry in H.
        apply append_empty in H as [_ H]. apply append_empty in H as [H _].
        apply toLowerCase_empty in H. contradiction.
    - split; [discriminate | intros [g [H _]]; discriminate]. }
  rewrite Hgroup. tauto.
Qed.

Lemma matchesFilter_ignoringCase {L : Js.Lowering} (f : string) (task : TaskInfo) :
  f <> "" ->
  Js.isAscii f = true ->
  asciiTask task = true ->
  MCPTools.matchesFilter (Js.toLowerCase f) task = true <-> matchesSpec f task.
Proof.
  intros Hf Haf Hat. unfold asciiTask in Hat.
  apply andb_true_iff in Hat as [Hat Hg]. apply andb_true_iff in Hat as [Hn Hs].
  unfold MCPTools.matchesFilter, matchesSpec.
  rewrite !orb_true_iff.
  rewrite (Js.toLowerCase_ascii f Haf), (Js.toLowerCase_ascii _ Hn),
    (Js.toLowerCase_ascii _ Hs), !containsIgnoringCase_ascii.
  assert (Hgroup :
    match info_group task with
    | Some g => Js.truthy g && Js.includes (Js.toLowerCase g) (Js.asciiToLowerCase f)
    | None => false
    end = true
    <-> exists g, info_group task = Some g /\ containsIgnoringCase f g).
  { destruct (info_group task) as [g|].
    - rewrite (Js.toLowerCase_ascii g Hg), andb_true_iff, containsIgnoringCase_ascii,
        truthy_true. split.
      + intros [_ H]. exists g. split; [reflexivity | exact H].
      + intros (g' & Heq & H). inversion Heq; subst g'. split; [|exact H].
        intros ->. apply containsIgnoringCase_empty in H. contradiction.
    - split; [discriminate | intros (g & H & _); discriminate]. }
  rewrite Hgroup. tauto.
Qed.

Lemma matchesLowerCased_empty {L : Js.Lowering} (task : TaskInfo) :
  matchesLowerCased "" task.
Proof.
  left. exists "", (Js.toLowerCase (info_name task)).
  now rewrite toLowerCase_nil.
Qed.

Lemma matchesSpec_empty (task : TaskInfo) : matchesSpec "" task.
Proof. left. exists "", "", (info_name task). split; reflexivity. Qed.

Lemma filter_all {A : Type} (l : list A) : List.filter (fun _ => true) l = l.
Proof. induction l as [|x l IH]; simpl; [reflexivity | now rewrite IH]. Qed.

(** [listTasks] presents the descriptors that pass its filter. *)
Lemma listTasks_listing {L : Js.Lowering} (reg : Registry) (args : Args)
    (infos : list TaskInfo) :
  getAllTasks reg = Ok infos ->
  MCPTools.listTasks reg args
  = Ok (listing (arg_filter args) (MCPTools.filterTasks (arg_filter args) infos)).
Proof. intros H. unfold MCPTools.listTasks. rewrite H. reflexivity. Qed.

(** A task without a group is enumerated with the group [none], and the
    filter matches that placeholder like any other group. *)
Example filter_matches_placeholder_group :
  MCPTools.listTasks (L := asciiLowering) sampleRegistry (filterArgs "NONE")
  = Ok (listing (Some "NONE") (List.map toTaskInfo [npmBuild; gruntBuild])).
Proof. vm_compute. reflexivity. Qed.

(** C3. For every filter string [f], [listTasks] answers with the count
    and the entries of, in order, exactly the descriptors of the registry
    whose lower-cased name, source or group contains the lower-cased [f],
    [toLowerCase] being the engine's function whatever it does outside
    ASCII. When [f] and the name, source and group of a descriptor are
    ASCII text, that is: the descriptor's name, source or group contains
    [f] up to the case of letters. With the empty filter every descriptor
    is kept and the answer is the one given without a filter. *)
Theorem listTasks_filter {L : Js.Lowering} (reg : Registry) (args : Args)
    (infos : list TaskInfo) (f : string) :
  getAllTasks reg = Ok infos ->
  arg_filter args = Some f ->
  exists keep : TaskInfo -> bool,
    MCPTools.listTasks reg args = Ok (listing (Some f) (List.filter keep infos))
    /\ (forall task, keep task = true <-> matchesLowerCased f task)
    /\ (Js.isAscii f = true ->
        forall task, asciiTask task = true ->
                     (keep task = true <-> matchesSpec f task))
    /\ (f = "" ->
        List.filter keep infos = infos
        /\ MCPTools.listTasks reg args
           = MCPTools.listTasks reg {| arg_filter := None;
                                       arg_taskName := arg_taskName args;
                                       arg_source := arg_source args |}).
Proof.
  intros Hinfos Hfilter.
  exists (fun task =>
            if Js.truthy f then MCPTools.matchesFilter (Js.toLowerCase f) task else true).
  rewrite !(listTasks_listing _ _ _ Hinfos), Hfilter.
  unfold MCPTools.filterTasks. cbn [arg_filter].
  destruct (Js.truthy f) eqn:Hf.
  - apply truthy_true in Hf. split; [reflexivity|]. split; [|split].
    + intros task. now apply matchesFilter_lowerCased.
    + intros Ha task Ht. now apply matchesFilter_ignoringCase.
    + intros ->. congruence.
  - apply truthy_false in Hf. subst f. rewrite filter_all.
    split; [reflexivity|]. split; [|split].
    + intros task. split; [intros _; apply matchesLowerCased_empty | reflexivity].
    + intros _ task _. split; [intros _; apply matchesSpec_empty | reflexivity].
    + intros _. split; reflexivity.
Qed.

Lemma listTasks_filter_witness :
  MCPTools.listTasks (L := asciiLowering) sampleRegistry (filterArgs "GRUNT")
  = Ok (listing (Some "GRUNT") [toTaskInfo gruntBuild])
  /\ matchesSpec "GRUNT" (toTaskInfo gruntBuild)
  /\ ~ matchesSpec "GRUNT" (toTaskInfo npmBuild).
Proof.
  destruct (listTasks_filter (L := asciiLowering) sampleRegistry (filterArgs "GRUNT")
              (List.map toTaskInfo [npmBuild; gruntBuild]) "GRUNT" eq_refl eq_refl)
    as (keep & Hlist & _ & Hkeep & _).
  specialize (Hkeep eq_refl).
  pose proof (Hkeep (toTaskInfo npmBuild) eq_refl) as Knpm.
  pose proof (Hkeep (toTaskInfo gruntBuild) eq_refl) as Kgrunt.
  assert (Hnpm : keep (toTaskInfo npmBuild) = false).
  { apply not_true_is_false. intros Hk. apply Knpm in Hk.
    apply (matchesFilter_ignoringCase (L := asciiLowering)) in Hk;
      [discriminate Hk | discriminate | reflexivity | reflexivity]. }
  assert (Hgrunt : keep (toTaskInfo gruntBuild) = true).
  { apply Kgrunt.
    apply (matchesFilter_ignoringCase (L := asciiLowering));
      [discriminate | reflexivity | reflexivity | reflexivity]. }
  split; [|split].
  - rewrite Hlist. cbn [List.map List.filter]. now rewrite Hnpm, Hgrunt.
  - now apply Kgrunt.
  - intros H. apply Knpm in H. congruence.
Defined.

(** *** The final sigma *)

(** Whatever else the engine's [toLowerCase] does, once it writes the
    sigma that ends [ΑΣ] as a final sigma the task [ΑΣ] is not listed for
    the filter [Σ]. *)
Lemma final_sigma_not_listed {L : Js.Lowering} :
  Js.toLowerCase "ΑΣ" = "ας" ->
  Js.toLowerCase "Σ" = "σ" ->
  MCPTools.listTasks greekRegistry (filterArgs "Σ") = Ok (listing (Some "Σ") []).
Proof.
  intros Hname Hfilter.
  rewrite (listTasks_listing greekRegistry (filterArgs "Σ")
             [toTaskInfo (sampleTask "ΑΣ" "npm")] eq_refl).
  f_equal. f_equal. cbn [arg_filter filterArgs].
  unfold MCPTools.filterTasks.
  change (Js.truthy "Σ") with true. cbv iota zeta.
  cbn [List.filter]. unfold MCPTools.matchesFilter.
  change (info_name (toTaskInfo (sampleTask "ΑΣ" "npm"))) with "ΑΣ".
  change (info_source (toTaskInfo (sampleTask "ΑΣ" "npm"))) with "npm".
  change (info_group (toTaskInfo (sampleTask "ΑΣ" "npm"))) with (Some "none").
  rewrite Hname, Hfilter.
  rewrite (Js.toLowerCase_ascii "npm" eq_refl), (Js.toLowerCase_ascii "none" eq_refl).
  vm_compute. reflexivity.
Qed.

(** The claim of C3 as the specification words it fails for the task
    named [ΑΣ] and the filter [Σ]: the name holds the filter as it is
    written, and [listTasks] lists no task, because the engine lower-cases
    the name to [ας], with a final sigma, and the filter to [σ]. *)
Lemma final_sigma_counterexample :
  getAllTasks greekRegistry = Ok [toTaskInfo (sampleTask "ΑΣ" "npm")]
  /\ info_name (toTaskInfo (sampleTask "ΑΣ" "npm")) = "Α" +:+ "Σ" +:+ ""
  /\ matchesSpec "Σ" (toTaskInfo (sampleTask "ΑΣ" "npm"))
  /\ @Js.toLowerCase greekLowering "ΑΣ" = "ας"
  /\ @Js.toLowerCase greekLowering "Σ" = "σ"
  /\ MCPTools.listTasks (L := greekLowering) greekRegistry (filterArgs "Σ")
     = Ok {| text := "Found 0 tasks matching filter 'Σ':" +:+ nl +:+ nl;
             isError := false |}.
Proof.
  split; [reflexivity|]. split; [reflexivity|]. split.
  - left. exists "Α", "Σ", "". split; reflexivity.
  - split; [reflexivity|]. split; [reflexivity|].
    vm_compute. reflexivity.
Qed.

(** ** Descriptor lookup *)

Lemma find_conj_none {A : Type} (f g : A -> bool) (l : list A) :
  List.find f l = None -> List.find (fun x => f x && g x) l = None.
Proof.
  induction l as [|x l IH]; simpl; [reflexivity|].
  destruct (f x); simpl; [discriminate | exact IH].
Qed.

(** The second [find] of the lookup never runs with a chance of success:
    it is tried only when no descriptor has the name. *)
Lemma findTaskInfo_by_name (tasks : list TaskInfo) (name : string) (source : option string) :
  MCPTools.findTaskInfo tasks name source
  = List.find (fun task => String.eqb (info_name task) name) tasks.
Proof.
  unfold MCPTools.findTaskInfo.
  destruct (List.find (fun task => String.eqb (info_name task) name) tasks) eqn:Hname;
    [reflexivity|].
  destruct source as [src|]; [|reflexivity].
  destruct (Js.truthy src); [|reflexivity].
  apply (find_conj_none _ (fun task => String.eqb (info_source task) src)), Hname.
Qed.

Lemma executeTask_ignores_source (reg : Registry) (name : string)
    (source : option string) (now : Z) :
  executeTask reg name source now = executeTask reg name None now.
Proof.
  unfold executeTask. destruct (reg_fetchTasks reg) as [tasks|e]; [|reflexivity].
  cbn -[String.eqb]. f_equal.
  destruct (List.find (fun task => String.eqb (task_name task) name) tasks) eqn:Hname;
    [reflexivity|].
  destruct source as [src|]; [|reflexivity].
  destruct (Js.truthy src); [|reflexivity].
  now rewrite (find_conj_none _ (fun task => String.eqb (task_source task) src) _ Hname).
Qed.

(** C1. With the registry reporting [build] of [npm] and then [build] of
    [grunt], a lookup of [build] with source [grunt] yields the [npm]
    descriptor, in [getTaskDetails] and in [executeTask] alike: the first
    descriptor with the name is returned whatever the source argument is. *)
Theorem lookup_with_source_grunt_returns_npm :
  MCPTools.findTaskInfo (List.map toTaskInfo [npmBuild; gruntBuild]) "build" (Some "grunt")
  = Some (toTaskInfo npmBuild)
  /\ (exists o,
        MCPTools.getTaskDetails sampleRegistry (taskNameArgs "build" (Some "grunt")) = Ok o
        /\ isError o = false
        /\ Js.includes (text o) "Source: npm" = true
        /\ Js.includes (text o) "grunt" = false)
  /\ call_taskId <$> executeTask sampleRegistry "build" (Some "grunt") 0
     = Ok (getTaskId npmBuild)
  /\ MCPTools.getTaskDetails sampleRegistry (taskNameArgs "build" (Some "npm"))
     = MCPTools.getTaskDetails sampleRegistry (taskNameArgs "build" (Some "grunt")).
Proof.
  split; [reflexivity|]. split; [|split; reflexivity].
  eexists. split; [reflexivity|]. split; [reflexivity|]. split; vm_compute; reflexivity.
Qed.

(** ** The insertion-ordered map *)

Lemma JsMap_get_set {V : Type} (k k' : string) (v : V) (m : JsMap.t V) :
  JsMap.get k (JsMap.set k' v m) = if String.eqb k' k then Some v else JsMap.get k m.
Proof.
  induction m as [|[k0 v0] m IH]; simpl.
  - destruct (String.eqb k' k); reflexivity.
  - destruct (String.eqb_spec k0 k') as [->|Hne]; simpl.
    + destruct (String.eqb k' k); reflexivity.
    + rewrite IH. destruct (String.eqb_spec k0 k) as [->|Hne'].
      * destruct (String.eqb_spec k' k); [congruence | reflexivity].
      * reflexivity.
Qed.

Lemma JsMap_has_set {V : Type} (k k' : string) (v : V) (m : JsMap.t V) :
  JsMap.has k m = true -> JsMap.has k (JsMap.set k' v m) = true.
Proof.
  unfold JsMap.has. rewrite JsMap_get_set.
  destruct (String.eqb k' k); [reflexivity | auto].
Qed.

Lemma JsMap_get_delete_ne {V : Type} (k k' : string) (m : JsMap.t V) :
  k' <> k -> JsMap.get k (JsMap.delete k' m) = JsMap.get k m.
Proof.
  intros Hne. induction m as [|[k0 v0] m IH]; simpl; [reflexivity|].
  destruct (String.eqb_spec k0 k') as [->|Hne0].
  - rewrite IH. destruct (String.eqb_spec k' k); [congruence | reflexivity].
  - simpl. rewrite IH. reflexivity.
Qed.

Lemma JsMap_get_delete_eq {V : Type} (k : string) (m : JsMap.t V) :
  JsMap.get k (JsMap.delete k m) = None.
Proof.
  induction m as [|[k0 v0] m IH]; simpl; [reflexivity|].
  destruct (String.eqb_spec k0 k) as [->|Hne]; [exact IH|].
  simpl. destruct (String.eqb_spec k0 k); [congruence | exact IH].
Qed.

(** ** Completion polling *)

Lemma settle_pending (s : Settlement) : settle s None = Some s.
Proof. reflexivity. Qed.

Lemma checkCompletion_buffered (p : TaskProvider) (c : Call) (now : Z)
    (r : TaskExecutionResult) :
  executionResults p !! call_taskId c = Some r ->
  checkCompletion p c now
  = ({| taskExecutions := taskExecutions p;
        executionResults := delete (call_taskId c) (executionResults p) |},
     {| call_taskId := call_taskId c;
        call_taskName := call_taskName c;
        call_startTime := call_startTime c;
        call_polling := false;
        call_timer := call_timer c;
        call_settled := settle (Resolved r) (call_settled c) |}).
Proof. intros H. unfold checkCompletion. now rewrite H. Qed.

Lemma checkCompletion_active (p : TaskProvider) (c : Call) (now : Z) :
  executionResults p !! call_taskId c = None ->
  JsMap.has (call_taskId c) (taskExecutions p) = true ->
  checkCompletion p c now = (p, c).
Proof. intros Hr Ha. unfold checkCompletion. now rewrite Hr, Ha. Qed.

Lemma checkCompletion_fallback (p : TaskProvider) (c : Call) (now : Z) :
  executionResults p !! call_taskId c = None ->
  JsMap.has (call_taskId c) (taskExecutions p) = false ->
  checkCompletion p c now
  = (p,
     {| call_taskId := call_taskId c;
        call_taskName := call_taskName c;
        call_startTime := call_startTime c;
        call_polling := false;
        call_timer := call_timer c;
        call_settled := settle (Resolved (fallbackResult c now)) (call_settled c) |}).
Proof. intros Hr Ha. unfold checkCompletion. now rewrite Hr, Ha. Qed.

(** C2. When the end event has buffered a provisional result with
    [success = true] under a task id, a process-exit event with exit code
    [c] for that id replaces it by the same result with [exitCode = c] and
    [success = (c == 0)], and a poll of a pending call on that id then
    resolves with the patched result; for [c = 1] that is [success = false]
    and [exitCode = 1]. *)
Theorem process_exit_patches_result (p : TaskProvider) (task : Task) (c : Z)
    (r : TaskExecutionResult) :
  executionResults p !! getTaskId task = Some r ->
  success r = true ->
  let p' := onDidEndTaskProcess p task (Some c) in
  let r' := {| taskName := taskName r;
               exitCode := Some c;
               success := c =? 0;
               output := output r;
               error := error r;
               duration := duration r |} in
  executionResults p' !! getTaskId task = Some r'
  /\ taskExecutions p' = taskExecutions p
  /\ (c = 1 -> success r' = false /\ exitCode r' = Some 1)
  /\ (forall call now,
        call_taskId call = getTaskId task ->
        call_settled call = None ->
        call_settled (snd (checkCompletion p' call now)) = Some (Resolved r')).
Proof.
  intros Hbuf _ p' r'.
  assert (Hp' : executionResults p' !! getTaskId task = Some r').
  { subst p'. unfold onDidEndTaskProcess. rewrite Hbuf. simpl.
    apply lookup_insert_eq. }
  split; [exact Hp'|]. split; [|split].
  - subst p'. unfold onDidEndTaskProcess. now rewrite Hbuf.
  - intros ->. split; reflexivity.
  - intros call now Hid Hpending. rewrite <- Hid in Hp'.
    rewrite (checkCompletion_buffered _ _ _ _ Hp'). simpl. now rewrite Hpending.
Qed.

Lemma process_exit_patches_result_witness :
  let task := npmBuild in
  let p := onDidEndTask (onDidStartTask newTaskProvider task) task 1000 1000 in
  exists r',
    executionResults (onDidEndTaskProcess p task (Some 1)) !! getTaskId task = Some r'
    /\ success r' = false /\ exitCode r' = Some 1.
Proof.
  intros task p.
  assert (Hbuf : executionResults p !! getTaskId task
                 = Some {| taskName := "build"; exitCode := None; success := true;
                           output := None; error := None; duration := 0 |})
    by (vm_compute; reflexivity).
  destruct (process_exit_patches_result p task 1 _ Hbuf eq_refl) as [H _].
  eexists. split; [exact H|]. split; reflexivity.
Defined.

(** C5. The first poll that finds a result under a task id resolves its
    call with that result and removes it from [executionResults]; a second
    pending call on the same id, polled when the id is not in
    [taskExecutions], does not find the result and resolves with the
    synthesized successful result. *)
Theorem result_consumed_once (p : TaskProvider) (c1 c2 : Call) (r : TaskExecutionResult)
    (now1 now2 : Z) :
  executionResults p !! call_taskId c1 = Some r ->
  call_settled c1 = None ->
  call_taskId c2 = call_taskId c1 ->
  call_settled c2 = None ->
  JsMap.has (call_taskId c1) (taskExecutions p) = false ->
  let '(p1, c1') := checkCompletion p c1 now1 in
  let '(p2, c2') := checkCompletion p1 c2 now2 in
  call_settled c1' = Some (Resolved r)
  /\ executionResults p1 !! call_taskId c1 = None
  /\ call_settled c2' = Some (Resolved (fallbackResult c2 now2))
  /\ fallbackResult c2 now2
     = {| taskName := call_taskName c2; exitCode := None; success := true;
          output := None; error := None; duration := now2 - call_startTime c2 |}
  /\ p2 = p1.
Proof.
  intros Hbuf Hp1 Hid Hp2 Hinactive.
  rewrite (checkCompletion_buffered _ _ _ _ Hbuf).
  rewrite checkCompletion_fallback.
  - simpl. rewrite Hp1, Hp2. repeat split. apply lookup_delete_eq.
  - simpl. rewrite Hid. apply lookup_delete_eq.
  - simpl. rewrite Hid. exact Hinactive.
Qed.

Lemma result_consumed_once_witness :
  let task := npmBuild in
  let p := onDidEndTask (onDidStartTask newTaskProvider task) task 1000 1000 in
  let c := {| call_taskId := getTaskId task; call_taskName := "build";
              call_startTime := 900; call_polling := true; call_timer := true;
              call_settled := None |} in
  let '(p1, c1') := checkCompletion p c 1100 in
  let '(p2, c2') := checkCompletion p1 c 1200 in
  call_settled c1' = Some (Resolved {| taskName := "build"; exitCode := None;
                                       success := true; output := None; error := None;
                                       duration := 0 |})
  /\ call_settled c2' = Some (Resolved {| taskName := "build"; exitCode := None;
                                          success := true; output := None; error := None;
                                          duration := 300 |}).
Proof.
  pose proof (result_consumed_once
    (onDidEndTask (onDidStartTask newTaskProvider npmBuild) npmBuild 1000 1000)
    {| call_taskId := getTaskId npmBuild; call_taskName := "build";
       call_startTime := 900; call_polling := true; call_timer := true;
       call_settled := None |}
    {| call_taskId := getTaskId npmBuild; call_taskName := "build";
       call_startTime := 900; call_polling := true; call_timer := true;
       call_settled := None |}
    {| taskName := "build"; exitCode := None; success := true;
       output := None; error := None; duration := 0 |}
    1100 1200 ltac:(vm_compute; reflexivity) eq_refl eq_refl eq_refl
    ltac:(vm_compute; reflexivity)) as H.
  cbv zeta.
  destruct (checkCompletion _ _ 1100) as [p1 c1'].
  destruct (checkCompletion p1 _ 1200) as [p2 c2'].
  destruct H as (H1 & _ & H2 & _). split; [exact H1 | exact H2].
Defined.

(** ** Steps of the event loop *)

Lemma step_terminated (w : World) (ev : Event) : terminated (step w ev) = terminated w.
Proof.
  destruct ev as [task|task n0 n1|task code|j now|j]; simpl; try reflexivity.
  - destruct (calls w !! j) as [cj|]; [|reflexivity].
    destruct (call_polling cj); [|reflexivity].
    now destruct (checkCompletion (provider w) cj now).
  - destruct (calls w !! j) as [cj|]; [|reflexivity].
    now destruct (call_timer cj).
Qed.

Lemma run_cons (ev : Event) (evs : list Event) (w : World) :
  run w (ev :: evs) = run (step w ev) evs.
Proof. reflexivity. Qed.

Lemma run_terminated (evs : list Event) (w : World) : terminated (run w evs) = terminated w.
Proof.
  revert w. induction evs as [|ev evs IH]; intros w; [reflexivity|].
  now rewrite run_cons, IH, step_terminated.
Qed.

Lemma run_app (evs1 evs2 : list Event) (w : World) :
  run w (evs1 ++ evs2) = run (run w evs1) evs2.
Proof. unfold run. apply fold_left_app. Qed.

Lemma run_snoc (evs : list Event) (ev : Event) (w : World) :
  run w (evs ++ [ev]) = step (run w evs) ev.
Proof. now rewrite run_app. Qed.




(** A step that neither completes the task id of a waiting call nor fires
    its timer leaves the call waiting. *)
Lemma step_waiting (i : nat) (c : Call) (w : World) (ev : Event) :
  waiting i c w ->
  completionOf ev <> Some (call_taskId c) ->
  ev <> TimeoutFired i ->
  waiting i c (step w ev).
Proof.
  intros (Hc & Hactive & Hnone) Hquiet Hfire. unfold waiting.
  destruct ev as [task|task n0 n1|task code|j now|j]; simpl in *.
  - split; [exact Hc|]. split; [|exact Hnone]. now apply JsMap_has_set.
  - assert (Hne : getTaskId task <> call_taskId c) by congruence.
    split; [exact Hc|]. split.
    + unfold JsMap.has in *. now rewrite JsMap_get_delete_ne.
    + now rewrite lookup_insert_ne.
  - assert (Hne : getTaskId task <> call_taskId c) by congruence.
    unfold onDidEndTaskProcess.
    destruct (executionResults (provider w) !! getTaskId task); simpl.
    + split; [exact Hc|]. split; [exact Hactive|]. now rewrite lookup_insert_ne.
    + auto.
  - destruct (calls w !! j) as [cj|] eqn:Hj; [|auto].
    destruct (call_polling cj); [|auto].
    destruct (decide (j = i)) as [->|Hne].
    + assert (cj = c) by congruence. subst cj.
      rewrite checkCompletion_active by assumption. simpl.
      rewrite list_insert_id by assumption. auto.
    + unfold checkCompletion.
      destruct (executionResults (provider w) !! call_taskId cj) eqn:Hbuf; simpl.
      * rewrite list_lookup_insert_ne by assumption.
        split; [exact Hc|]. split; [exact Hactive|].
        rewrite lookup_delete_ne; [exact Hnone | congruence].
      * destruct (JsMap.has (call_taskId cj) (taskExecutions (provider w))); simpl;
          rewrite list_lookup_insert_ne by assumption; auto.
  - destruct (calls w !! j) as [cj|] eqn:Hj; [|auto].
    destruct (call_timer cj); [|auto]. simpl.
    rewrite list_lookup_insert_ne by congruence. auto.
Qed.

Lemma run_waiting (i : nat) (c : Call) (evs : list Event) (w : World) :
  waiting i c w ->
  Forall (fun ev => completionOf ev <> Some (call_taskId c) /\ ev <> TimeoutFired i) evs ->
  waiting i c (run w evs).
Proof.
  revert w. induction evs as [|ev evs IH]; intros w Hw Hall; [exact Hw|].
  apply Forall_cons in Hall as [[Hquiet Hfire] Hall].
  rewrite run_cons. apply IH; [|exact Hall]. now apply step_waiting.
Qed.



(** ** Starting a call *)

Lemma executeTask_ok (reg : Registry) (name : string) (source : option string) (now : Z)
    (c : Call) :
  executeTask reg name source now = Ok c ->
  call_taskName c = name /\ call_startTime c = now
  /\ call_polling c = true /\ call_timer c = true /\ call_settled c = None
  /\ exists tasks task,
       reg_fetchTasks reg = Ok tasks /\ In task tasks
       /\ task_name task = name /\ call_taskId c = getTaskId task.
Proof.
  rewrite executeTask_ignores_source. unfold executeTask.
  destruct (reg_fetchTasks reg) as [tasks|e]; [|discriminate].
  cbn -[String.eqb].
  destruct (List.find (fun task => String.eqb (task_name task) name) tasks)
    as [task|] eqn:Hfind; [|discriminate].
  cbn -[String.eqb]. destruct (reg_executeTask reg task) as [[]|e]; [|discriminate].
  cbn -[String.eqb]. intros Hc. inversion Hc; subst c; clear Hc. simpl.
  repeat (split; [reflexivity|]).
  apply List.find_some in Hfind as [Hin Hname].
  exists tasks, task. repeat split; try assumption. now apply String.eqb_eq.
Qed.


(** ** Timeout *)

(** C4, as the code has it. Let call [i] be pending with its timer armed,
    its task id registered in [taskExecutions] by the start event and no
    result buffered under that id. If from then on no end or process-exit
    event for the id is handled before the five-minute timer fires, then
    the timer rejects the call with the timeout error, [executeTool] turns
    the rejection into an error [Outcome] naming the timeout, the id is
    still in [taskExecutions] and no termination was requested. *)
Theorem timeout_rejects_waiting_call (w : World) (i : nat) (c : Call) (evs : list Event) :
  calls w !! i = Some c ->
  call_settled c = None ->
  call_timer c = true ->
  JsMap.has (call_taskId c) (taskExecutions (provider w)) = true ->
  executionResults (provider w) !! call_taskId c = None ->
  Forall (fun ev => completionOf ev <> Some (call_taskId c) /\ ev <> TimeoutFired i) evs ->
  let w' := run w (evs ++ [TimeoutFired i]) in
  (exists c', calls w' !! i = Some c'
              /\ call_settled c' = Some (Rejected (timeoutError (call_taskName c))))
  /\ MCPTools.executeToolResume "execute_task" (Rejected (timeoutError (call_taskName c)))
     = {| text := "Error executing tool 'execute_task': Task '" +:+ call_taskName c
                  +:+ "' timed out after 5 minutes";
          isError := true |}
  /\ JsMap.has (call_taskId c) (taskExecutions (provider w')) = true
  /\ terminated w' = terminated w.
Proof.
  intros Hc Hpending Htimer Hactive Hnone Hall w'.
  assert (Hw : waiting i c (run w evs)) by (apply run_waiting; [repeat split|]; assumption).
  destruct Hw as (Hc' & Hactive' & _).
  subst w'. rewrite run_snoc.
  split; [|split; [reflexivity|split]].
  - unfold step. rewrite Hc', Htimer. simpl.
    rewrite list_lookup_insert_eq by (eapply lookup_lt_Some; eassumption).
    eexists. split; [reflexivity|]. simpl. now rewrite Hactive', Hpending.
  - unfold step. rewrite Hc', Htimer. exact Hactive'.
  - now rewrite step_terminated, run_terminated.
Qed.

Lemma timeout_rejects_waiting_call_witness :
  let '(_, w1) := beginExecute sampleRegistry newWorld "build" None 1000 in
  let w := step w1 (DidStartTask npmBuild) in
  let evs := [CheckCompletion 0 1100; DidStartTask gruntBuild; CheckCompletion 0 1200;
              DidEndTask gruntBuild 1250 1250; CheckCompletion 0 1300] in
  let w' := run w (evs ++ [TimeoutFired 0]) in
  (exists c', calls w' !! 0%nat = Some c'
              /\ call_settled c' = Some (Rejected (timeoutError "build")))
  /\ JsMap.has (getTaskId npmBuild) (taskExecutions (provider w')) = true
  /\ terminated w' = [].
Proof.
  pose proof (timeout_rejects_waiting_call
    (step (snd (beginExecute sampleRegistry newWorld "build" None 1000))
          (DidStartTask npmBuild))
    0
    {| call_taskId := getTaskId npmBuild; call_taskName := "build"; call_startTime := 1000;
       call_polling := true; call_timer := true; call_settled := None |}
    [CheckCompletion 0 1100; DidStartTask gruntBuild; CheckCompletion 0 1200;
     DidEndTask gruntBuild 1250 1250; CheckCompletion 0 1300]
    eq_refl eq_refl eq_refl ltac:(vm_compute; reflexivity) ltac:(vm_compute; reflexivity)
    ltac:(repeat constructor; vm_compute; discriminate)) as H.
  cbv zeta in H. destruct H as (H1 & _ & H2 & H3).
  split; [exact H1|]. split; [exact H2 | exact H3].
Defined.

(** ** A result left over from an earlier run *)



(** The claim of C4 as the specification words it fails on two runs in
    which no end or process-exit event is handled after the call starts.
    In the first a run of the task outside any call has left a result
    buffered: the first poll resolves the call with it, and the timer finds
    the promise settled. In the second the start event is not handled
    before the first poll: the poll resolves the call with the synthesized
    successful result. Neither call ends in the timeout error. *)
Lemma timeout_claim_counterexample :
  (let w0 := run newWorld [DidStartTask npmBuild; DidEndTask npmBuild 500 500] in
   let '(r, w1) := beginExecute sampleRegistry w0 "build" None 1000 in
   let evs := [DidStartTask npmBuild; CheckCompletion 0 1100] in
   let w2 := run w1 (evs ++ [TimeoutFired 0]) in
   r = Ok 0%nat
   /\ Forall (fun ev => completionOf ev <> Some (getTaskId npmBuild)) evs
   /\ JsMap.has (getTaskId npmBuild) (taskExecutions (provider w2)) = true
   /\ exists c result,
        calls w2 !! 0%nat = Some c
        /\ call_settled c = Some (Resolved result)
        /\ call_settled c <> Some (Rejected (timeoutError "build"))
        /\ isError (MCPTools.executeToolResume "execute_task" (Resolved result)) = false)
  /\
  (let '(r, w1) := beginExecute sampleRegistry newWorld "build" None 1000 in
   let evs := [CheckCompletion 0 1100] in
   let w2 := run w1 (evs ++ [TimeoutFired 0]) in
   r = Ok 0%nat
   /\ Forall (fun ev => completionOf ev <> Some (getTaskId npmBuild)) evs
   /\ JsMap.has (getTaskId npmBuild) (taskExecutions (provider w2)) = false
   /\ exists c,
        calls w2 !! 0%nat = Some c
        /\ call_settled c
           = Some (Resolved {| taskName := "build"; exitCode := None; success := true;
                               output := None; error := None; duration := 100 |})
        /\ MCPTools.executeToolResume "execute_task"
             (Resolved {| taskName := "build"; exitCode := None; success := true;
                          output := None; error := None; duration := 100 |})
           = {| text := "Task 'build' execution SUCCESS" +:+ nl +:+ "Duration: 100ms";
                isError := false |}).
Proof.
  split.
  - cbv zeta. split; [reflexivity|].
    split; [repeat constructor; vm_compute; discriminate|].
    split; [vm_compute; reflexivity|].
    eexists; eexists. split; [vm_compute; reflexivity|].
    split; [reflexivity|]. split; [discriminate | vm_compute; reflexivity].
  - cbv zeta. split; [reflexivity|].
    split; [repeat constructor; vm_compute; discriminate|].
    split; [vm_compute; reflexivity|].
    eexists. split; [vm_compute; reflexivity|].
    split; vm_compute; reflexivity.
Qed.

(** ** Unknown task names *)

Lemma find_name_none (tasks : list Task) (name : string) :
  (forall task, In task tasks -> task_name task <> name) ->
  List.find (fun task => String.eqb (task_name task) name) tasks = None.
Proof.
  intros Hno. induction tasks as [|t tasks IH]; simpl; [reflexivity|].
  destruct (String.eqb_spec (task_name t) name) as [Heq|_].
  - exfalso. apply (Hno t); [now left | exact Heq].
  - apply IH. intros task Hin. apply Hno. now right.
Qed.

Lemma executeTask_not_found (reg : Registry) (tasks : list Task) (name : string)
    (source : option string) (now : Z) :
  reg_fetchTasks reg = Ok tasks ->
  (forall task, In task tasks -> task_name task <> name) ->
  executeTask reg name source now
  = Throw (Js.JsError
             ("Failed to execute task '" +:+ name +:+ "': " +:+ "Task '" +:+ name
              +:+ "' not found. Available tasks: "
              +:+ Js.join ", " (List.map (fun t => task_source t +:+ ":" +:+ task_name t) tasks))).
Proof.
  intros Hfetch Hno. rewrite executeTask_ignores_source. unfold executeTask.
  rewrite Hfetch. cbn -[String.eqb]. now rewrite (find_name_none _ _ Hno).
Qed.

(** C6, as the code has it. For every non-empty name that no descriptor of
    the registry's enumeration has, [execute_task] returns an [Outcome]
    with [isError = true] whose text lists every available descriptor as
    [source:name]. *)
Theorem execute_unknown_name {L : Js.Lowering} (reg : Registry) (w : World) (tasks : list Task)
    (name : string) (args : Args) (now : Z) :
  reg_fetchTasks reg = Ok tasks ->
  arg_taskName args = Some name ->
  name <> "" ->
  (forall task, In task tasks -> task_name task <> name) ->
  let o :=
    {| text := "Error executing tool 'execute_task': "
               +:+ "Failed to execute task '" +:+ name +:+ "': "
               +:+ "Task '" +:+ name +:+ "' not found. Available tasks: "
               +:+ Js.join ", " (List.map (fun t => task_source t +:+ ":" +:+ task_name t) tasks);
       isError := true |} in
  MCPTools.executeTool reg w {| tool_name := "execute_task"; tool_arguments := args |} now
  = (Returned o, w)
  /\ forall task, In task tasks ->
       Js.includes (text o) (task_source task +:+ ":" +:+ task_name task) = true.
Proof.
  intros Hfetch Hname Hne Hno o. split.
  - unfold MCPTools.executeTool, MCPTools.switchTool. cbn -[MCPTools.executeTask String.append].
    unfold MCPTools.executeTask, beginExecute. rewrite Hname.
    apply truthy_true in Hne. rewrite Hne.
    now rewrite (executeTask_not_found _ _ _ _ _ Hfetch Hno).
  - intros task Hin. subst o. cbn [text].
    do 7 apply includes_append_r.
    apply includes_join.
    apply (List.in_map (fun t => task_source t +:+ ":" +:+ task_name t)), Hin.
Qed.

Lemma execute_unknown_name_witness :
  MCPTools.executeTool (L := asciiLowering) sampleRegistry newWorld
    {| tool_name := "execute_task"; tool_arguments := taskNameArgs "deploy" None |} 0
  = (Returned
       {| text := "Error executing tool 'execute_task': Failed to execute task 'deploy': "
                  +:+ "Task 'deploy' not found. Available tasks: npm:build, grunt:build";
          isError := true |},
     newWorld).
Proof.
  destruct (execute_unknown_name (L := asciiLowering)
      sampleRegistry newWorld [npmBuild; gruntBuild] "deploy"
              (taskNameArgs "deploy" None) 0 eq_refl eq_refl
              ltac:(discriminate)
              ltac:(intros task [<-|[<-|[]]]; discriminate)) as [H _].
  exact H.
Defined.

(** The claim of C6 as the specification words it fails for the empty
    name: no descriptor has it, and the text of the [Outcome] lists no
    descriptor. *)
Lemma execute_empty_name_counterexample :
  (forall task, In task [npmBuild; gruntBuild] -> task_name task <> "")
  /\ exists o,
       MCPTools.executeTool (L := asciiLowering) sampleRegistry newWorld
         {| tool_name := "execute_task"; tool_arguments := taskNameArgs "" None |} 0
       = (Returned o, newWorld)
       /\ o = {| text := "Error executing tool 'execute_task': taskName is required";
                 isError := true |}
       /\ Js.includes (text o) "npm:build" = false
       /\ Js.includes (text o) "grunt:build" = false.
Proof.
  split; [intros task [<-|[<-|[]]]; discriminate|].
  eexists. split; [reflexivity|]. split; [reflexivity|]. split; vm_compute; reflexivity.
Qed.

(** ** Termination of a task that is not running *)

Lemma world_eta (w : World) :
  {| provider := provider w; calls := calls w; terminated := (terminated w ++ [])%list |} = w.
Proof. destruct w. simpl. now rewrite app_nil_r. Qed.

Lemma find_execution_none (execs : list Task) (name : string) :
  (forall exec, In exec execs -> task_name exec <> name) ->
  List.find (fun exec => String.eqb (task_name exec) name) execs = None.
Proof. apply find_name_none. Qed.

(** C7. For every name that no active execution's task has,
    [terminateTask] returns [false] and requests no termination, and the
    [terminate_task] tool returns an [Outcome] with [isError = true] to the
    dispatcher, which returns it without throwing; the state is unchanged. *)
Theorem terminate_not_running {L : Js.Lowering}
    (reg : Registry) (w : World) (name : string) (now : Z) :
  (forall exec, In exec (JsMap.values (taskExecutions (provider w))) ->
                task_name exec <> name) ->
  terminateTask (provider w) name = (false, None)
  /\ exists o,
       MCPTools.executeTool reg w
         {| tool_name := "terminate_task"; tool_arguments := taskNameArgs name None |} now
       = (Returned o, w)
       /\ isError o = true
       /\ handleToolsCall reg w
            (Some {| param_name := Some "terminate_task";
                     param_arguments := Some (taskNameArgs name None) |}) now
          = (Ok (Returned o), w)
       /\ (name <> "" ->
           text o = "Failed to terminate task '" +:+ name
                    +:+ "'. Task may not be running or termination failed.").
Proof.
  intros Hno.
  assert (Hterm : terminateTask (provider w) name = (false, None)).
  { unfold terminateTask. now rewrite (find_execution_none _ _ Hno). }
  split; [exact Hterm|].
  unfold handleToolsCall, MCPTools.executeTool, MCPTools.switchTool.
  cbn -[MCPTools.terminateTask String.append].
  unfold MCPTools.terminateTask. cbn [arg_taskName taskNameArgs].
  destruct (Js.truthy name) eqn:Htruthy.
  - rewrite Hterm. cbn -[String.append]. rewrite world_eta.
    eexists. split; [reflexivity|]. split; [reflexivity|]. split; reflexivity.
  - eexists. split; [reflexivity|]. split; [reflexivity|]. split; [reflexivity|].
    intros Hne. apply truthy_true in Hne. congruence.
Qed.

Lemma terminate_not_running_witness :
  terminateTask (provider (step newWorld (DidStartTask npmBuild))) "test" = (false, None)
  /\ exists o,
       MCPTools.executeTool (L := asciiLowering)
           sampleRegistry (step newWorld (DidStartTask npmBuild))
         {| tool_name := "terminate_task"; tool_arguments := taskNameArgs "test" None |} 0
       = (Returned o, step newWorld (DidStartTask npmBuild))
       /\ isError o = true.
Proof.
  destruct (terminate_not_running (L := asciiLowering)
      sampleRegistry (step newWorld (DidStartTask npmBuild))
              "test" 0 ltac:(intros exec [<-|[]]; discriminate))
    as (H1 & o & H2 & H3 & _).
  split; [exact H1|]. exists o. split; [exact H2 | exact H3].
Defined.

(** ** Failures inside a tool handler *)

(** Every failure that leaves a tool handler before its [await] is an
    [Error] object, and the handler has not changed the state. *)
Lemma switchTool_throws_error {L : Js.Lowering}
    (reg : Registry) (w w' : World) (toolCall : ToolCall)
    (now : Z) (e : Js.Thrown) :
  MCPTools.switchTool reg w toolCall now = (Throw e, w') ->
  w' = w /\ exists message, e = Js.JsError message.
Proof.
  unfold MCPTools.switchTool.
  destruct (String.eqb (tool_name toolCall) "list_tasks").
  { unfold MCPTools.listTasks, getAllTasks.
    destruct (reg_fetchTasks reg); cbn; intros H; inversion H; eauto. }
  destruct (String.eqb (tool_name toolCall) "execute_task").
  { unfold MCPTools.executeTask, beginExecute.
    destruct (arg_taskName (tool_arguments toolCall)) as [name|];
      [|intros H; inversion H; eauto].
    destruct (Js.truthy name); [|intros H; inversion H; eauto].
    destruct (executeTask reg name (arg_source (tool_arguments toolCall)) now)
      as [c|e0] eqn:Hexec; [discriminate|].
    intros H; inversion H; subst. split; [reflexivity|].
    revert Hexec. unfold executeTask.
    destruct (reg_fetchTasks reg) as [tasks|e1]; cbn -[String.eqb];
      [|intros H'; inversion H'; eauto].
    match goal with |- context [match ?t with Some _ => _ | None => _ end] =>
      destruct t as [task|] end; cbn -[String.eqb];
      [|intros H'; inversion H'; eauto].
    destruct (reg_executeTask reg task); cbn -[String.eqb];
      intros H'; inversion H'; eauto. }
  destruct (String.eqb (tool_name toolCall) "get_running_tasks").
  { unfold MCPTools.getRunningTasks.
    destruct (Nat.eqb _ 0); cbn; intros H; inversion H. }
  destruct (String.eqb (tool_name toolCall) "terminate_task").
  { unfold MCPTools.terminateTask.
    destruct (arg_taskName (tool_arguments toolCall)) as [name|];
      [|intros H; inversion H; eauto].
    destruct (Js.truthy name); [|intros H; inversion H; eauto].
    destruct (terminateTask (provider w) name). cbn. intros H; inversion H. }
  destruct (String.eqb (tool_name toolCall) "get_task_details").
  { unfold MCPTools.getTaskDetails, getAllTasks.
    destruct (arg_taskName (tool_arguments toolCall)) as [name|];
      [|intros H; inversion H; eauto].
    destruct (Js.truthy name); [|intros H; inversion H; eauto].
    destruct (reg_fetchTasks reg) as [tasks|e1]; cbn -[MCPTools.findTaskInfo];
      [|intros H; inversion H; eauto].
    destruct (MCPTools.findTaskInfo _ _ _); cbn; intros H; inversion H. }
  intros H; inversion H; eauto.
Qed.

(** C8. Whatever the tool name and the arguments, a failure thrown by the
    handler that [executeTool] dispatches to, before or after the handler's
    [await], comes back as an [Outcome] with [isError = true] and the text
    [Error executing tool 'X': reason]; a tool call that reaches
    [executeTool] through the dispatcher never makes the dispatcher throw. *)
Theorem executeTool_catches {L : Js.Lowering}
    (reg : Registry) (w : World) (toolCall : ToolCall) (now : Z) :
  (forall e w',
      MCPTools.switchTool reg w toolCall now = (Throw e, w') ->
      MCPTools.executeTool reg w toolCall now
      = (Returned {| text := "Error executing tool '" +:+ tool_name toolCall +:+ "': "
                             +:+ Js.messageOr "Unknown error" e;
                     isError := true |},
         w'))
  /\ (forall e,
        MCPTools.executeToolResume (tool_name toolCall) (Rejected e)
        = {| text := "Error executing tool '" +:+ tool_name toolCall +:+ "': "
                     +:+ Js.messageOr "Unknown error" e;
             isError := true |})
  /\ (Js.truthy (tool_name toolCall) = true ->
      forall arguments,
        default noArgs arguments = tool_arguments toolCall ->
        handleToolsCall reg w
          (Some {| param_name := Some (tool_name toolCall);
                   param_arguments := arguments |}) now
        = (Ok (fst (MCPTools.executeTool reg w toolCall now)),
           snd (MCPTools.executeTool reg w toolCall now))).
Proof.
  split; [|split].
  - intros e w' H. unfold MCPTools.executeTool. now rewrite H.
  - reflexivity.
  - intros Htruthy arguments Hargs. unfold handleToolsCall.
    cbn [param_name param_arguments]. rewrite Htruthy, Hargs.
    destruct toolCall as [name args]. cbn [tool_name tool_arguments].
    now destruct (MCPTools.executeTool reg w {| tool_name := name; tool_arguments := args |} now).
Qed.

Lemma executeTool_catches_witness :
  MCPTools.executeTool (L := asciiLowering)
      {| reg_fetchTasks := Throw (Js.JsError "task service is not available");
                 reg_executeTask := fun _ => Ok tt;
                 reg_taskExecutions := [] |}
    newWorld {| tool_name := "list_tasks"; tool_arguments := noArgs |} 0
  = (Returned
       {| text := "Error executing tool 'list_tasks': "
                  +:+ "Failed to fetch tasks: task service is not available";
          isError := true |},
     newWorld)
  /\ handleToolsCall (L := asciiLowering) sampleRegistry newWorld
       (Some {| param_name := Some "run_everything"; param_arguments := None |}) 0
     = (Ok (Returned {| text := "Error executing tool 'run_everything': "
                                +:+ "Unknown tool: run_everything";
                        isError := true |}),
        newWorld).
Proof.
  split.
  - destruct (executeTool_catches (L := asciiLowering)
                {| reg_fetchTasks := Throw (Js.JsError "task service is not available");
                   reg_executeTask := fun _ => Ok tt;
                   reg_taskExecutions := [] |}
                newWorld {| tool_name := "list_tasks"; tool_arguments := noArgs |} 0)
      as (H & _ & _).
    exact (H (Js.JsError "Failed to fetch tasks: task service is not available")
             newWorld eq_refl).
  - destruct (executeTool_catches (L := asciiLowering) sampleRegistry newWorld
                {| tool_name := "run_everything"; tool_arguments := noArgs |} 0)
      as (_ & _ & H).
    exact (H eq_refl None eq_refl).
Defined.

(** ** A missing [taskName] *)

(** C9, as the code has it. A call of [execute_task] or [terminate_task]
    without [taskName] passes the dispatcher, which checks the tool name
    only; the tool handler's first statement throws [taskName is required]
    before the tracker or the registry is used, and [executeTool] returns
    the failure to the dispatcher as an [Outcome] with [isError = true].
    The dispatcher does not throw and the state is unchanged. *)
Theorem missing_taskName_rejected_by_handler {L : Js.Lowering}
    (reg : Registry) (w : World) (name : string)
    (args : Args) (now : Z) :
  name = "execute_task" \/ name = "terminate_task" ->
  arg_taskName args = None ->
  MCPTools.switchTool reg w {| tool_name := name; tool_arguments := args |} now
  = (Throw (Js.JsError "taskName is required"), w)
  /\ handleToolsCall reg w
       (Some {| param_name := Some name; param_arguments := Some args |}) now
     = (Ok (Returned {| text := "Error executing tool '" +:+ name
                                +:+ "': taskName is required";
                        isError := true |}),
        w)
  /\ handleToolsCall reg w
       (Some {| param_name := Some name; param_arguments := None |}) now
     = (Ok (Returned {| text := "Error executing tool '" +:+ name
                                +:+ "': taskName is required";
                        isError := true |}),
        w).
Proof.
  intros [-> | ->] Hmissing.
  - unfold handleToolsCall, MCPTools.executeTool, MCPTools.switchTool.
    cbn -[MCPTools.executeTask String.append]. unfold MCPTools.executeTask.
    rewrite Hmissing. cbn. repeat split.
  - unfold handleToolsCall, MCPTools.executeTool, MCPTools.switchTool.
    cbn -[MCPTools.terminateTask String.append]. unfold MCPTools.terminateTask.
    rewrite Hmissing. cbn. repeat split.
Qed.

Lemma missing_taskName_rejected_by_handler_witness :
  handleToolsCall (L := asciiLowering) sampleRegistry newWorld
    (Some {| param_name := Some "terminate_task"; param_arguments := Some noArgs |}) 0
  = (Ok (Returned {| text := "Error executing tool 'terminate_task': taskName is required";
                     isError := true |}),
     newWorld).
Proof.
  destruct (missing_taskName_rejected_by_handler (L := asciiLowering)
      sampleRegistry newWorld "terminate_task"
              noArgs 0 (or_intror eq_refl) eq_refl) as (_ & H & _).
  exact H.
Defined.

(** The claim of C9 as the specification words it fails: a call of
    [execute_task] without [taskName] does not fail in the dispatcher,
    which throws for a missing tool name only; [handleToolsCall] returns
    normally with the [Outcome] that the tool handler's failure produced. *)
Lemma missing_taskName_counterexample :
  handleToolsCall (L := asciiLowering) sampleRegistry newWorld
    (Some {| param_name := Some "execute_task"; param_arguments := Some noArgs |}) 0
  = (Ok (Returned {| text := "Error executing tool 'execute_task': taskName is required";
                     isError := true |}),
     newWorld)
  /\ (forall e w',
        handleToolsCall (L := asciiLowering) sampleRegistry newWorld
          (Some {| param_name := Some "execute_task"; param_arguments := Some noArgs |}) 0
        <> (Throw e, w'))
  /\ handleToolsCall (L := asciiLowering) sampleRegistry newWorld
       (Some {| param_name := None; param_arguments := Some noArgs |}) 0
     = (Throw (Js.JsError "Tool name is required"), newWorld).
Proof.
  split; [reflexivity|]. split; [|reflexivity].
  intros e w' H. vm_compute in H. discriminate H.
Qed.

(** ** A call that timed out keeps polling *)

(** After the timer has rejected a call, its [checkCompletion] chain is
    still armed: once the end event arrives, the next poll removes the
    buffered result although the promise is already settled. *)
Example timed_out_call_consumes_result :
  let '(_, w1) := beginExecute sampleRegistry newWorld "build" None 1000 in
  let w2 := run w1 [DidStartTask npmBuild; CheckCompletion 0 1100; TimeoutFired 0;
                    DidEndTask npmBuild 400000 400000; CheckCompletion 0 400050] in
  executionResults (provider w2) !! getTaskId npmBuild = None
  /\ (call_settled <$> calls w2 !! 0%nat) = Some (Some (Rejected (timeoutError "build"))).
Proof. split; vm_compute; reflexivity. Qed.

(** * Further properties of the tracker *)

(** ** Task ids *)

(** X1. Two tasks with the same source and name that belong to workspace
    folders have the same task id, whatever the folders are: the id renders
    a folder object as [[object Object]]. The end event of one of them
    therefore removes the registration of the other. *)
Theorem folder_tasks_share_id (p : TaskProvider) (t1 t2 : Task) (f1 f2 : string)
    (now0 now1 : Z) :
  task_source t1 = task_source t2 ->
  task_name t1 = task_name t2 ->
  task_scope t1 = Some (Folder f1) ->
  task_scope t2 = Some (Folder f2) ->
  getTaskId t1 = getTaskId t2
  /\ JsMap.has (getTaskId t1)
       (taskExecutions (onDidEndTask (onDidStartTask p t1) t2 now0 now1)) = false.
Proof.
  intros Hsource Hname Hs1 Hs2.
  assert (Hid : getTaskId t1 = getTaskId t2).
  { unfold getTaskId. now rewrite Hsource, Hname, Hs1, Hs2. }
  split; [exact Hid|].
  unfold onDidEndTask, onDidStartTask, JsMap.has. cbn [taskExecutions].
  now rewrite Hid, JsMap_get_delete_eq.
Qed.

Lemma folder_tasks_share_id_witness :
  let t1 := {| task_name := "test"; task_source := "npm"; task_groupKind := None;
               task_scope := Some (Folder "client"); task_definition := "{}";
               task_execution := None; task_isBackground := false;
               task_problemMatchers := [] |} in
  let t2 := {| task_name := "test"; task_source := "npm"; task_groupKind := None;
               task_scope := Some (Folder "server"); task_definition := "{}";
               task_execution := None; task_isBackground := false;
               task_problemMatchers := [] |} in
  getTaskId t1 = "npm-test-[object Object]"
  /\ getTaskId t1 = getTaskId t2
  /\ JsMap.has (getTaskId t1)
       (taskExecutions (onDidEndTask (onDidStartTask newTaskProvider t1) t2 0 0)) = false.
Proof.
  intros t1 t2. split; [reflexivity|].
  exact (folder_tasks_share_id newTaskProvider t1 t2 "client" "server" 0 0
           eq_refl eq_refl eq_refl eq_refl).
Defined.

(** X2. The task id joins source, name and scope with [-] and nothing
    stops a source or a name from containing [-]: moving a [-]-separated
    part from the end of the source to the front of the name gives the same
    id. *)
Theorem task_id_separator_collision (t1 t2 : Task) (s n m : string) :
  task_source t1 = s +:+ "-" +:+ n ->
  task_name t1 = m ->
  task_source t2 = s ->
  task_name t2 = n +:+ "-" +:+ m ->
  task_scope t1 = task_scope t2 ->
  getTaskId t1 = getTaskId t2.
Proof.
  intros Hs1 Hn1 Hs2 Hn2 Hscope. unfold getTaskId.
  rewrite Hs1, Hn1, Hs2, Hn2, Hscope. now rewrite !string_app_assoc.
Qed.

Lemma task_id_separator_collision_witness :
  getTaskId (sampleTask "watch" "npm-run") = getTaskId (sampleTask "run-watch" "npm")
  /\ sampleTask "watch" "npm-run" <> sampleTask "run-watch" "npm".
Proof.
  split; [|discriminate].
  exact (task_id_separator_collision (sampleTask "watch" "npm-run")
           (sampleTask "run-watch" "npm") "npm" "run" "watch"
           eq_refl eq_refl eq_refl eq_refl eq_refl).
Defined.

(** ** Lifecycle events *)

Lemma JsMap_get_set_ne {V : Type} (k k' : string) (v : V) (m : JsMap.t V) :
  k' <> k -> JsMap.get k (JsMap.set k' v m) = JsMap.get k m.
Proof.
  intros Hne. rewrite JsMap_get_set.
  destruct (String.eqb_spec k' k); [contradiction | reflexivity].
Qed.

(** X3. A start event followed by the end event of the same task leaves
    the task id inactive and buffers the provisional result (successful,
    without exit code, with the difference of the end handler's two clock
    readings as duration); the registration and the buffered result of
    every other task id are as before. *)
Theorem start_then_end (p : TaskProvider) (task : Task) (now0 now1 : Z) :
  let p' := onDidEndTask (onDidStartTask p task) task now0 now1 in
  JsMap.has (getTaskId task) (taskExecutions p') = false
  /\ executionResults p' !! getTaskId task
     = Some {| taskName := task_name task; exitCode := None; success := true;
               output := None; error := None; duration := now1 - now0 |}
  /\ forall k, k <> getTaskId task ->
       JsMap.get k (taskExecutions p') = JsMap.get k (taskExecutions p)
       /\ executionResults p' !! k = executionResults p !! k.
Proof.
  intros p'. subst p'. unfold onDidEndTask, onDidStartTask.
  cbn [taskExecutions executionResults]. split; [|split].
  - unfold JsMap.has. now rewrite JsMap_get_delete_eq.
  - apply lookup_insert_eq.
  - intros k Hk. split.
    + rewrite JsMap_get_delete_ne by congruence. apply JsMap_get_set_ne. congruence.
    + apply lookup_insert_ne. congruence.
Qed.

(** X4. A process-exit event that is handled while no result is buffered
    under the task id changes nothing, so when it precedes the end event
    of its run the exit code is lost: whatever the code was, the end event
    buffers a successful result without exit code, and a pending call on
    the id resolves with it and is rendered as a success. *)
Theorem process_exit_before_end_is_lost (p : TaskProvider) (task : Task)
    (code : option Z) (now0 now1 : Z) :
  executionResults p !! getTaskId task = None ->
  onDidEndTaskProcess p task code = p
  /\ let p' := onDidEndTask (onDidEndTaskProcess p task code) task now0 now1 in
     let r := {| taskName := task_name task; exitCode := None; success := true;
                 output := None; error := None; duration := now1 - now0 |} in
     executionResults p' !! getTaskId task = Some r
     /\ forall call now,
          call_taskId call = getTaskId task ->
          call_settled call = None ->
          call_settled (snd (checkCompletion p' call now)) = Some (Resolved r)
          /\ isError (MCPTools.executeToolResume "execute_task" (Resolved r)) = false.
Proof.
  intros Hnone.
  assert (Hsame : onDidEndTaskProcess p task code = p).
  { unfold onDidEndTaskProcess. now rewrite Hnone. }
  split; [exact Hsame|]. rewrite Hsame. intros p' r.
  assert (Hbuf : executionResults p' !! getTaskId task = Some r)
    by apply lookup_insert_eq.
  split; [exact Hbuf|]. intros call now Hid Hpending. split; [|reflexivity].
  rewrite <- Hid in Hbuf. rewrite (checkCompletion_buffered _ _ _ _ Hbuf).
  simpl. now rewrite Hpending.
Qed.

Lemma process_exit_before_end_is_lost_witness :
  let p := onDidStartTask newTaskProvider npmBuild in
  let p' := onDidEndTask (onDidEndTaskProcess p npmBuild (Some 1)) npmBuild 70 70 in
  executionResults p' !! getTaskId npmBuild
  = Some {| taskName := "build"; exitCode := None; success := true;
            output := None; error := None; duration := 0 |}.
Proof.
  intros p p'.
  destruct (process_exit_before_end_is_lost p npmBuild (Some 1) 70 70
              ltac:(vm_compute; reflexivity)) as [_ [H _]].
  exact H.
Defined.

(** X5. When a poll runs between the end event and the process-exit event
    of a run, the pending call resolves with the provisional successful
    result, and the process-exit event that follows finds nothing to
    patch: the exit code never reaches the caller. *)
Theorem poll_before_process_exit (p : TaskProvider) (call : Call) (task : Task)
    (r : TaskExecutionResult) (code : option Z) (now : Z) :
  call_taskId call = getTaskId task ->
  call_settled call = None ->
  executionResults p !! getTaskId task = Some r ->
  let '(p1, call') := checkCompletion p call now in
  let p2 := onDidEndTaskProcess p1 task code in
  call_settled call' = Some (Resolved r)
  /\ p2 = p1
  /\ executionResults p2 !! getTaskId task = None.
Proof.
  intros Hid Hpending Hbuf. rewrite <- Hid in Hbuf.
  rewrite (checkCompletion_buffered _ _ _ _ Hbuf). cbv zeta.
  assert (Hgone : executionResults
            {| taskExecutions := taskExecutions p;
               executionResults := delete (call_taskId call) (executionResults p) |}
            !! getTaskId task = None).
  { cbn [executionResults]. rewrite Hid. apply lookup_delete_eq. }
  split; [cbn; now rewrite Hpending|]. split; [|].
  - unfold onDidEndTaskProcess. now rewrite Hgone.
  - unfold onDidEndTaskProcess. rewrite Hgone. exact Hgone.
Qed.

Lemma poll_before_process_exit_witness :
  let p := onDidEndTask (onDidStartTask newTaskProvider npmBuild) npmBuild 70 70 in
  let call := {| call_taskId := getTaskId npmBuild; call_taskName := "build";
                 call_startTime := 10; call_polling := true; call_timer := true;
                 call_settled := None |} in
  let '(p1, call') := checkCompletion p call 110 in
  call_settled call'
  = Some (Resolved {| taskName := "build"; exitCode := None; success := true;
                      output := None; error := None; duration := 0 |})
  /\ onDidEndTaskProcess p1 npmBuild (Some 2) = p1.
Proof.
  pose proof (poll_before_process_exit
    (onDidEndTask (onDidStartTask newTaskProvider npmBuild) npmBuild 70 70)
    {| call_taskId := getTaskId npmBuild; call_taskName := "build";
       call_startTime := 10; call_polling := true; call_timer := true;
       call_settled := None |}
    npmBuild
    {| taskName := "build"; exitCode := None; success := true;
       output := None; error := None; duration := 0 |}
    (Some 2) 110 eq_refl eq_refl ltac:(vm_compute; reflexivity)) as H.
  cbv zeta.
  destruct (checkCompletion _ _ 110) as [p1 call'].
  destruct H as (H1 & H2 & _). split; [exact H1 | exact H2].
Defined.

(** ** What tool calls and callbacks do to the calls *)

Lemma executeTool_effect {L : Js.Lowering}
    (reg : Registry) (w : World) (toolCall : ToolCall) (now : Z) :
  let w' := snd (MCPTools.executeTool reg w toolCall now) in
  provider w' = provider w
  /\ (calls w' = calls w
      \/ exists c, calls w' = (calls w ++ [c])%list
                   /\ call_settled c = None /\ call_polling c = true
                   /\ call_timer c = true).
Proof.
  unfold MCPTools.executeTool, MCPTools.switchTool.
  destruct (String.eqb (tool_name toolCall) "list_tasks").
  { destruct (MCPTools.listTasks reg (tool_arguments toolCall)); cbn; auto. }
  destruct (String.eqb (tool_name toolCall) "execute_task").
  { unfold MCPTools.executeTask, beginExecute.
    destruct (arg_taskName (tool_arguments toolCall)) as [name|]; [|cbn; auto].
    destruct (Js.truthy name); [|cbn; auto].
    destruct (executeTask reg name (arg_source (tool_arguments toolCall)) now)
      as [c|e] eqn:Hexec; [|cbn; auto].
    cbn. split; [reflexivity|]. right. exists c. split; [reflexivity|].
    destruct (executeTask_ok _ _ _ _ _ Hexec) as (_ & _ & Hp & Ht & Hs & _). auto. }
  destruct (String.eqb (tool_name toolCall) "get_running_tasks").
  { destruct (MCPTools.getRunningTasks reg); cbn; auto. }
  destruct (String.eqb (tool_name toolCall) "terminate_task").
  { unfold MCPTools.terminateTask.
    destruct (arg_taskName (tool_arguments toolCall)) as [name|]; [|cbn; auto].
    destruct (Js.truthy name); [|cbn; auto].
    destruct (terminateTask (provider w) name). cbn. auto. }
  destruct (String.eqb (tool_name toolCall) "get_task_details").
  { destruct (MCPTools.getTaskDetails reg (tool_arguments toolCall)); cbn; auto. }
  cbn. auto.
Qed.

Lemma checkCompletion_keeps_settlement (p : TaskProvider) (c : Call) (now : Z)
    (s : Settlement) :
  call_settled c = Some s ->
  let c' := snd (checkCompletion p c now) in
  call_settled c' = Some s /\ call_taskId c' = call_taskId c
  /\ call_taskName c' = call_taskName c.
Proof.
  intros Hs. unfold checkCompletion.
  destruct (executionResults p !! call_taskId c); cbn; [now rewrite Hs|].
  destruct (JsMap.has (call_taskId c) (taskExecutions p)); cbn; now rewrite Hs.
Qed.

Lemma step_keeps_settlement (w : World) (ev : Event) (i : nat) (c : Call) (s : Settlement) :
  calls w !! i = Some c ->
  call_settled c = Some s ->
  exists c', calls (step w ev) !! i = Some c'
             /\ call_settled c' = Some s /\ call_taskId c' = call_taskId c
             /\ call_taskName c' = call_taskName c.
Proof.
  intros Hc Hs.
  destruct ev as [task|task n0 n1|task code|j now|j]; simpl; try solve [exists c; auto].
  - destruct (calls w !! j) as [cj|] eqn:Hj; [|exists c; auto].
    destruct (call_polling cj); [|exists c; auto].
    destruct (checkCompletion (provider w) cj now) as [p' c'] eqn:Hcheck. simpl.
    destruct (decide (j = i)) as [->|Hne].
    + assert (cj = c) by congruence. subst cj.
      rewrite list_lookup_insert_eq by (eapply lookup_lt_Some; eassumption).
      exists c'. split; [reflexivity|].
      pose proof (checkCompletion_keeps_settlement (provider w) c now s Hs) as H.
      rewrite Hcheck in H. exact H.
    + rewrite list_lookup_insert_ne by assumption. exists c; auto.
  - destruct (calls w !! j) as [cj|] eqn:Hj; [|exists c; auto].
    destruct (call_timer cj); [|exists c; auto]. simpl.
    destruct (decide (j = i)) as [->|Hne].
    + assert (cj = c) by congruence. subst cj.
      rewrite list_lookup_insert_eq by (eapply lookup_lt_Some; eassumption).
      eexists. split; [reflexivity|]. unfold timeoutFired. cbn. rewrite Hs.
      destruct (JsMap.has (call_taskId c) (taskExecutions (provider w))); auto.
    + rewrite list_lookup_insert_ne by assumption. exists c; auto.
Qed.

Lemma run_evolves {L : Js.Lowering} (evs : list Event) (w : World) : evolves w (run w evs).
Proof.
  induction evs as [|ev evs IH] using rev_ind; [apply evolves_here|].
  rewrite run_snoc. now apply evolves_step.
Qed.

(** X6. A promise settles once. After a call of [executeTask] has been
    resolved or rejected, no callback of the event loop and no later tool
    call changes how it settled, nor its task id or task name. *)
Theorem settlement_is_final {L : Js.Lowering}
    (w w' : World) (i : nat) (c : Call) (s : Settlement) :
  evolves w w' ->
  calls w !! i = Some c ->
  call_settled c = Some s ->
  exists c', calls w' !! i = Some c'
             /\ call_settled c' = Some s /\ call_taskId c' = call_taskId c
             /\ call_taskName c' = call_taskName c.
Proof.
  intros Hev Hc Hs. induction Hev as [|w1 ev _ IH|reg w1 toolCall now _ IH].
  - exists c. auto.
  - destruct IH as (c1 & Hc1 & Hs1 & Hid1 & Hn1).
    destruct (step_keeps_settlement w1 ev i c1 s Hc1 Hs1) as (c' & H1 & H2 & H3 & H4).
    exists c'. repeat split; congruence.
  - destruct IH as (c1 & Hc1 & Hs1 & Hid1 & Hn1).
    destruct (executeTool_effect reg w1 toolCall now) as [_ [Hsame | (c2 & Happ & _)]].
    + exists c1. rewrite Hsame. auto.
    + exists c1. rewrite Happ, lookup_app_l by (eapply lookup_lt_Some; eassumption). auto.
Qed.

Lemma settlement_is_final_witness :
  let '(_, w1) := beginExecute sampleRegistry newWorld "build" None 1000 in
  let w := run w1 [DidStartTask npmBuild; DidEndTask npmBuild 2000 2000;
                   CheckCompletion 0 2050] in
  let w' := run w [DidStartTask npmBuild; DidEndTask npmBuild 3000 3001;
                   DidEndTaskProcess npmBuild (Some 1); CheckCompletion 0 3100;
                   TimeoutFired 0] in
  exists c', calls w' !! 0%nat = Some c'
             /\ call_settled c'
                = Some (Resolved {| taskName := "build"; exitCode := None; success := true;
                                    output := None; error := None; duration := 0 |}).
Proof.
  pose (w := run (snd (beginExecute sampleRegistry newWorld "build" None 1000))
               [DidStartTask npmBuild; DidEndTask npmBuild 2000 2000;
                CheckCompletion 0 2050]).
  assert (Hev : evolves (L := asciiLowering) w
            (run w [DidStartTask npmBuild; DidEndTask npmBuild 3000 3001;
                    DidEndTaskProcess npmBuild (Some 1); CheckCompletion 0 3100;
                    TimeoutFired 0])).
  { apply (run_evolves (L := asciiLowering)). }
  destruct (settlement_is_final (L := asciiLowering) w _ 0
              {| call_taskId := getTaskId npmBuild; call_taskName := "build";
                 call_startTime := 1000; call_polling := false; call_timer := true;
                 call_settled :=
                   Some (Resolved {| taskName := "build"; exitCode := None;
                                     success := true; output := None; error := None;
                                     duration := 0 |}) |}
              _ Hev ltac:(vm_compute; reflexivity) eq_refl)
    as (c' & H1 & H2 & _).
  exists c'. split; [exact H1 | exact H2].
Defined.

(** X7. The five-minute timer rejects the call but leaves its
    [checkCompletion] chain armed. When the end event of the run arrives
    afterwards, the next poll of the rejected call takes the buffered
    result out of [executionResults] and drops it: the call stays rejected
    and the result is no longer there for anyone. *)
Theorem timed_out_call_discards_result (w : World) (i : nat) (c : Call) (task : Task)
    (now0 now1 now : Z) :
  calls w !! i = Some c ->
  call_settled c = None ->
  call_timer c = true ->
  call_polling c = true ->
  JsMap.has (call_taskId c) (taskExecutions (provider w)) = true ->
  getTaskId task = call_taskId c ->
  let w1 := run w [TimeoutFired i; DidEndTask task now0 now1] in
  let w2 := step w1 (CheckCompletion i now) in
  executionResults (provider w1) !! call_taskId c
  = Some {| taskName := task_name task; exitCode := None; success := true;
            output := None; error := None; duration := now1 - now0 |}
  /\ executionResults (provider w2) !! call_taskId c = None
  /\ exists c', calls w2 !! i = Some c'
                /\ call_settled c' = Some (Rejected (timeoutError (call_taskName c)))
                /\ call_polling c' = false.
Proof.
  intros Hc Hpending Htimer Hpoll Hactive Hid w1 w2.
  assert (Hlt : (i < length (calls w))%nat) by (eapply lookup_lt_Some; eassumption).
  assert (Hw1 : w1 =
    {| provider := onDidEndTask (provider w) task now0 now1;
       calls := <[i := timeoutFired (provider w) c]> (calls w);
       terminated := terminated w |}).
  { subst w1. change (run w [TimeoutFired i; DidEndTask task now0 now1])
      with (step (step w (TimeoutFired i)) (DidEndTask task now0 now1)).
    assert (Hfire : step w (TimeoutFired i)
                    = {| provider := provider w;
                         calls := <[i := timeoutFired (provider w) c]> (calls w);
                         terminated := terminated w |})
      by (unfold step; now rewrite Hc, Htimer).
    rewrite Hfire. reflexivity. }
  assert (Hbuf : executionResults (provider w1) !! call_taskId c
                 = Some {| taskName := task_name task; exitCode := None; success := true;
                           output := None; error := None; duration := now1 - now0 |}).
  { rewrite Hw1. cbn [provider]. unfold onDidEndTask. cbn [executionResults].
    rewrite Hid. apply lookup_insert_eq. }
  split; [exact Hbuf|].
  assert (Hc1 : calls w1 !! i = Some (timeoutFired (provider w) c)).
  { rewrite Hw1. cbn [calls]. now apply list_lookup_insert_eq. }
  subst w2. unfold step. rewrite Hc1.
  assert (Hpoll1 : call_polling (timeoutFired (provider w) c) = true) by exact Hpoll.
  rewrite Hpoll1.
  assert (Hbuf' : executionResults (provider w1)
                    !! call_taskId (timeoutFired (provider w) c) = Some
                    {| taskName := task_name task; exitCode := None; success := true;
                       output := None; error := None; duration := now1 - now0 |})
    by exact Hbuf.
  rewrite (checkCompletion_buffered _ _ _ _ Hbuf'). cbn [provider calls executionResults].
  split.
  - apply lookup_delete_eq.
  - rewrite list_lookup_insert_eq by (rewrite Hw1; cbn [calls]; now rewrite length_insert).
    eexists. split; [reflexivity|]. cbn. rewrite Hactive, Hpending. auto.
Qed.

Lemma timed_out_call_discards_result_witness :
  let '(_, w0) := beginExecute sampleRegistry newWorld "build" None 1000 in
  let w := step w0 (DidStartTask npmBuild) in
  let w2 := run w [TimeoutFired 0; DidEndTask npmBuild 400000 400000;
                   CheckCompletion 0 400050] in
  executionResults (provider w2) !! getTaskId npmBuild = None
  /\ exists c', calls w2 !! 0%nat = Some c'
                /\ call_settled c' = Some (Rejected (timeoutError "build")).
Proof.
  destruct (timed_out_call_discards_result
              (step (snd (beginExecute sampleRegistry newWorld "build" None 1000))
                    (DidStartTask npmBuild))
              0
              {| call_taskId := getTaskId npmBuild; call_taskName := "build";
                 call_startTime := 1000; call_polling := true; call_timer := true;
                 call_settled := None |}
              npmBuild 400000 400000 400050
              eq_refl eq_refl eq_refl eq_refl ltac:(vm_compute; reflexivity) eq_refl)
    as (_ & H1 & c' & H2 & H3 & _).
  split; [exact H1|]. exists c'. split; [exact H2 | exact H3].
Defined.

(** ** Terminating a running task *)

Lemma find_app_first {A : Type} (f : A -> bool) (l1 l2 : list A) (y : A) :
  (forall x, In x l1 -> f x = false) ->
  f y = true ->
  List.find f (l1 ++ y :: l2) = Some y.
Proof.
  intros Hno Hy. induction l1 as [|x l1 IH]; simpl.
  - now rewrite Hy.
  - rewrite (Hno x) by now left. apply IH. intros z Hz. apply Hno. now right.
Qed.

(** X8. [terminate_task] picks the execution that was registered first
    among the active ones whose task has the name, asks it to terminate
    and reports success without waiting for an end event: the tracker
    state is unchanged, so the execution is still registered as active. *)
Theorem terminate_first_registered (w : World) (name k : string) (exec : Task)
    (pre post : JsMap.t Task) :
  taskExecutions (provider w) = (pre ++ (k, exec) :: post)%list ->
  (forall e, In e (JsMap.values pre) -> task_name e <> name) ->
  task_name exec = name ->
  name <> "" ->
  terminateTask (provider w) name = (true, Some exec)
  /\ MCPTools.terminateTask w (taskNameArgs name None)
     = (Ok {| text := "Task '" +:+ name +:+ "' has been terminated successfully.";
              isError := false |},
        {| provider := provider w;
           calls := calls w;
           terminated := (terminated w ++ [exec])%list |}).
Proof.
  intros Hmap Hpre Hexec Hne.
  assert (Hterm : terminateTask (provider w) name = (true, Some exec)).
  { unfold terminateTask, JsMap.values. rewrite Hmap, List.map_app. cbn [List.map snd].
    rewrite find_app_first; [reflexivity| |now apply String.eqb_eq].
    intros e He. apply String.eqb_neq. now apply Hpre. }
  split; [exact Hterm|].
  unfold MCPTools.terminateTask. cbn [arg_taskName taskNameArgs].
  apply truthy_true in Hne. now rewrite Hne, Hterm.
Qed.

Lemma terminate_first_registered_witness :
  let w := run newWorld [DidStartTask gruntBuild; DidStartTask npmBuild] in
  terminateTask (provider w) "build" = (true, Some gruntBuild)
  /\ snd (MCPTools.terminateTask w (taskNameArgs "build" None))
     = {| provider := provider w; calls := []; terminated := [gruntBuild] |}.
Proof.
  intros w.
  destruct (terminate_first_registered w "build" (getTaskId gruntBuild) gruntBuild
              [] [(getTaskId npmBuild, npmBuild)]
              eq_refl ltac:(intros e []) eq_refl ltac:(discriminate)) as [H1 H2].
  split; [exact H1|]. now rewrite H2.
Defined.

(** ** Starting a task *)

(** X9. When the registry lists the task but refuses to start it,
    [execute_task] answers with an error [Outcome] that carries the
    registry's message behind the two prefixes of [executeTool] and
    [executeTask], and no call is registered. *)
Theorem execute_start_failure {L : Js.Lowering}
    (reg : Registry) (w : World) (tasks : list Task)
    (task : Task) (name : string) (args : Args) (now : Z) (e : Js.Thrown) :
  reg_fetchTasks reg = Ok tasks ->
  List.find (fun t => String.eqb (task_name t) name) tasks = Some task ->
  reg_executeTask reg task = Throw e ->
  arg_taskName args = Some name ->
  name <> "" ->
  MCPTools.executeTool reg w {| tool_name := "execute_task"; tool_arguments := args |} now
  = (Returned {| text := "Error executing tool 'execute_task': "
                         +:+ "Failed to execute task '" +:+ name +:+ "': "
                         +:+ Js.messageOr "Unknown error" e;
                 isError := true |},
     w).
Proof.
  intros Hfetch Hfind Hstart Hname Hne.
  unfold MCPTools.executeTool, MCPTools.switchTool.
  cbn -[MCPTools.executeTask String.append].
  unfold MCPTools.executeTask, beginExecute. rewrite Hname.
  apply truthy_true in Hne. rewrite Hne.
  rewrite executeTask_ignores_source. unfold executeTask.
  rewrite Hfetch. cbn -[String.eqb String.append]. rewrite Hfind.
  cbn -[String.eqb String.append]. rewrite Hstart. reflexivity.
Qed.

Lemma execute_start_failure_witness :
  MCPTools.executeTool (L := asciiLowering)
    {| reg_fetchTasks := Ok [npmBuild];
       reg_executeTask := fun _ => Throw (Js.JsError "terminal is busy");
       reg_taskExecutions := [] |}
    newWorld
    {| tool_name := "execute_task"; tool_arguments := taskNameArgs "build" None |} 5
  = (Returned {| text := "Error executing tool 'execute_task': "
                         +:+ "Failed to execute task 'build': terminal is busy";
                 isError := true |},
     newWorld).
Proof.
  exact (execute_start_failure (L := asciiLowering)
           {| reg_fetchTasks := Ok [npmBuild];
              reg_executeTask := fun _ => Throw (Js.JsError "terminal is busy");
              reg_taskExecutions := [] |}
           newWorld [npmBuild] npmBuild "build" (taskNameArgs "build" None) 5
           (Js.JsError "terminal is busy")
           eq_refl eq_refl eq_refl eq_refl ltac:(discriminate)).
Defined.

Lemma onDidEndTaskProcess_taskExecutions (p : TaskProvider) (task : Task) (code : option Z) :
  taskExecutions (onDidEndTaskProcess p task code) = taskExecutions p.
Proof.
  unfold onDidEndTaskProcess. now destruct (executionResults p !! getTaskId task).
Qed.

(** X10. A complete run. When the registry lists the task and starts it,
    [execute_task] suspends on a new call; after the start event, the end
    event and a process-exit event with exit code [c] of that task, the
    call's next poll resolves it, and the [Outcome] says [SUCCESS] with
    [isError = false] exactly when [c] is 0. The duration it reports is
    the difference of the two clock readings of the end handler. Nothing
    stays registered or buffered under the task id. *)
Theorem execute_task_round_trip {L : Js.Lowering}
    (reg : Registry) (w : World) (tasks : list Task)
    (task : Task) (name : string) (args : Args) (now now0 now1 now' c : Z) :
  reg_fetchTasks reg = Ok tasks ->
  List.find (fun t => String.eqb (task_name t) name) tasks = Some task ->
  reg_executeTask reg task = Ok tt ->
  arg_taskName args = Some name ->
  name <> "" ->
  let i := length (calls w) in
  let '(pending, w1) :=
    MCPTools.executeTool reg w {| tool_name := "execute_task"; tool_arguments := args |} now in
  let w2 := run w1 [DidStartTask task; DidEndTask task now0 now1;
                    DidEndTaskProcess task (Some c); CheckCompletion i now'] in
  let r := {| taskName := name; exitCode := Some c; success := c =? 0;
              output := None; error := None; duration := now1 - now0 |} in
  pending = Awaits i
  /\ (exists c', calls w2 !! i = Some c' /\ call_settled c' = Some (Resolved r))
  /\ MCPTools.executeToolResume "execute_task" (Resolved r)
     = {| text := "Task '" +:+ name +:+ "' execution "
                  +:+ (if c =? 0 then "SUCCESS" else "FAILED")
                  +:+ (" (exit code: " +:+ Js.ofZ c +:+ ")")
                  +:+ nl +:+ ("Duration: " +:+ Js.ofZ (now1 - now0) +:+ "ms");
          isError := negb (c =? 0) |}
  /\ JsMap.has (getTaskId task) (taskExecutions (provider w2)) = false
  /\ executionResults (provider w2) !! getTaskId task = None.
Proof.
  intros Hfetch Hfind Hstart Hname Hne i.
  assert (Htask : task_name task = name).
  { apply List.find_some in Hfind as [_ H]. now apply String.eqb_eq. }
  assert (Hexec : executeTask reg name (arg_source args) now
                  = Ok {| call_taskId := getTaskId task; call_taskName := name;
                          call_startTime := now; call_polling := true;
                          call_timer := true; call_settled := None |}).
  { rewrite executeTask_ignores_source. unfold executeTask.
    rewrite Hfetch. cbn -[String.eqb String.append]. rewrite Hfind.
    cbn -[String.eqb String.append]. rewrite Hstart. reflexivity. }
  unfold MCPTools.executeTool, MCPTools.switchTool.
  cbn -[MCPTools.executeTask String.append run].
  unfold MCPTools.executeTask, beginExecute. rewrite Hname.
  apply truthy_true in Hne. rewrite Hne, Hexec. cbv zeta.
  split; [reflexivity|].
  set (call := {| call_taskId := getTaskId task; call_taskName := name;
                  call_startTime := now; call_polling := true;
                  call_timer := true; call_settled := None |}).
  set (r := {| taskName := name; exitCode := Some c; success := c =? 0;
               output := None; error := None; duration := now1 - now0 |}).
  set (w1 := {| provider := provider w; calls := (calls w ++ [call])%list;
                terminated := terminated w |}).
  change (run w1 [DidStartTask task; DidEndTask task now0 now1;
                  DidEndTaskProcess task (Some c); CheckCompletion i now'])
    with (step (run w1 [DidStartTask task; DidEndTask task now0 now1;
                        DidEndTaskProcess task (Some c)]) (CheckCompletion i now')).
  set (w3 := run w1 [DidStartTask task; DidEndTask task now0 now1;
                     DidEndTaskProcess task (Some c)]).
  assert (Hcalls : calls w3 = (calls w ++ [call])%list) by reflexivity.
  assert (Hbuf : executionResults (provider w3) !! getTaskId task = Some r).
  { subst w3. unfold run. cbn [fold_left step withProvider provider].
    unfold onDidEndTaskProcess at 1.
    assert (Hprov : executionResults
              (onDidEndTask (onDidStartTask (provider w1) task) task now0 now1)
              !! getTaskId task
            = Some {| taskName := task_name task; exitCode := None; success := true;
                      output := None; error := None; duration := now1 - now0 |})
      by apply lookup_insert_eq.
    rewrite Hprov. cbn [executionResults taskName output error duration].
    rewrite lookup_insert_eq. subst r. now rewrite Htask. }
  assert (Hinactive : JsMap.has (getTaskId task) (taskExecutions (provider w3)) = false).
  { subst w3. unfold run. cbn [fold_left step withProvider provider].
    rewrite onDidEndTaskProcess_taskExecutions. unfold onDidEndTask, JsMap.has.
    cbn [taskExecutions]. now rewrite JsMap_get_delete_eq. }
  assert (Hc : calls w3 !! i = Some call).
  { rewrite Hcalls. subst i. rewrite lookup_app_r by reflexivity.
    now rewrite Nat.sub_diag. }
  unfold step. rewrite Hc. cbn [call_polling call].
  assert (Hbuf' : executionResults (provider w3) !! call_taskId call = Some r)
    by exact Hbuf.
  rewrite (checkCompletion_buffered _ _ _ _ Hbuf').
  cbn [provider calls executionResults taskExecutions call_taskId call].
  split; [|split; [|split]].
  - rewrite list_lookup_insert_eq by (eapply lookup_lt_Some; eassumption).
    eexists. split; reflexivity.
  - unfold MCPTools.executeToolResume, MCPTools.executeTaskResume. subst r.
    cbn [success exitCode duration output error taskName Js.truthyOpt].
    destruct (c =? 0); cbn [negb]; f_equal;
      rewrite ?append_nil, ?append_empty_r; reflexivity.
  - exact Hinactive.
  - apply lookup_delete_eq.
Qed.

Lemma execute_task_round_trip_witness :
  let '(pending, w1) :=
    MCPTools.executeTool (L := asciiLowering) sampleRegistry newWorld
      {| tool_name := "execute_task"; tool_arguments := taskNameArgs "build" None |} 1000 in
  let w2 := run w1 [DidStartTask npmBuild; DidEndTask npmBuild 5000 5002;
                    DidEndTaskProcess npmBuild (Some 2); CheckCompletion 0 5100] in
  pending = Awaits 0
  /\ MCPTools.executeToolResume "execute_task"
       (Resolved {| taskName := "build"; exitCode := Some 2; success := false;
                    output := None; error := None; duration := 2 |})
     = {| text := "Task 'build' execution FAILED (exit code: 2)" +:+ nl +:+ "Duration: 2ms";
          isError := true |}
  /\ executionResults (provider w2) !! getTaskId npmBuild = None.
Proof.
  pose proof (execute_task_round_trip (L := asciiLowering)
      sampleRegistry newWorld [npmBuild; gruntBuild]
                npmBuild "build" (taskNameArgs "build" None) 1000 5000 5002 5100 2
                eq_refl eq_refl eq_refl eq_refl ltac:(discriminate)) as H.
  cbv zeta in H.
  destruct (MCPTools.executeTool sampleRegistry newWorld _ 1000) as [pending w1].
  destruct H as (H1 & _ & H3 & _ & H5).
  split; [exact H1|]. split; [exact H3 | exact H5].
Defined.

(** ** What a settled call can hold *)

Lemma trackerResult_fallback (c : Call) (now : Z) : trackerResult (fallbackResult c now).
Proof. repeat split. intros code H. discriminate H. Qed.

Lemma wellSettled_resolve (c c' : Call) (r : TaskExecutionResult) :
  wellSettled c ->
  trackerResult r ->
  call_taskName c' = call_taskName c ->
  call_settled c' = settle (Resolved r) (call_settled c) ->
  wellSettled c'.
Proof.
  unfold wellSettled. intros Hc Hr Hname Hs. rewrite Hs, Hname.
  destruct (call_settled c) as [[r0|e]|]; simpl; assumption.
Qed.

Lemma step_invariant (w : World) (ev : Event) :
  worldInvariant w -> worldInvariant (step w ev).
Proof.
  intros [Hres Hcalls]. unfold worldInvariant.
  destruct ev as [task|task n0 n1|task code|j now|j]; simpl.
  - split; assumption.
  - split; [|assumption]. intros k r.
    destruct (decide (getTaskId task = k)) as [<-|Hne].
    + rewrite lookup_insert_eq. intros H. inversion H; subst.
      repeat split. intros c Hc. discriminate Hc.
    + rewrite lookup_insert_ne by assumption. apply Hres.
  - split; [|assumption]. unfold onDidEndTaskProcess.
    destruct (executionResults (provider w) !! getTaskId task) as [r0|] eqn:Hbuf;
      [|exact Hres].
    intros k r. cbn [executionResults].
    destruct (decide (getTaskId task = k)) as [<-|Hne].
    + rewrite lookup_insert_eq. intros H. inversion H; subst.
      destruct (Hres _ _ Hbuf) as (Ho & He & _).
      repeat split; cbn; try assumption.
      intros c Hc. now rewrite Hc.
    + rewrite lookup_insert_ne by assumption. apply Hres.
  - destruct (calls w !! j) as [cj|] eqn:Hj; [|split; assumption].
    destruct (call_polling cj); [|split; assumption].
    unfold checkCompletion.
    destruct (executionResults (provider w) !! call_taskId cj) as [r0|] eqn:Hbuf.
    + cbn [provider calls executionResults]. split.
      * intros k r Hk. apply lookup_delete_Some in Hk as [_ Hk]. eapply Hres, Hk.
      * intros i c Hi. destruct (decide (j = i)) as [->|Hne].
        -- rewrite list_lookup_insert_eq in Hi by (eapply lookup_lt_Some; eassumption).
           inversion Hi; subst c.
           eapply (wellSettled_resolve cj _ r0); eauto.
        -- rewrite list_lookup_insert_ne in Hi by assumption. eapply Hcalls, Hi.
    + destruct (JsMap.has (call_taskId cj) (taskExecutions (provider w)));
        cbn [provider calls]; split; try assumption.
      * intros i c Hi. destruct (decide (j = i)) as [->|Hne].
        -- rewrite list_lookup_insert_eq in Hi by (eapply lookup_lt_Some; eassumption).
           inversion Hi; subst c. now apply (Hcalls i).
        -- rewrite list_lookup_insert_ne in Hi by assumption. eapply Hcalls, Hi.
      * intros i c Hi. destruct (decide (j = i)) as [->|Hne].
        -- rewrite list_lookup_insert_eq in Hi by (eapply lookup_lt_Some; eassumption).
           inversion Hi; subst c.
           eapply (wellSettled_resolve cj _ (fallbackResult cj now)); eauto.
           apply trackerResult_fallback.
        -- rewrite list_lookup_insert_ne in Hi by assumption. eapply Hcalls, Hi.
  - destruct (calls w !! j) as [cj|] eqn:Hj; [|split; assumption].
    destruct (call_timer cj); [|split; assumption].
    cbn [provider calls]. split; [assumption|].
    intros i c Hi. destruct (decide (j = i)) as [->|Hne].
    + rewrite list_lookup_insert_eq in Hi by (eapply lookup_lt_Some; eassumption).
      inversion Hi; subst c. pose proof (Hcalls _ _ Hj) as Hcj.
      unfold wellSettled, timeoutFired in *. cbn.
      destruct (JsMap.has (call_taskId cj) (taskExecutions (provider w)));
        [|exact Hcj].
      destruct (call_settled cj) as [[r0|e]|]; simpl; auto.
    + rewrite list_lookup_insert_ne in Hi by assumption. eapply Hcalls, Hi.
Qed.

Lemma executeTool_invariant {L : Js.Lowering}
    (reg : Registry) (w : World) (toolCall : ToolCall) (now : Z) :
  worldInvariant w -> worldInvariant (snd (MCPTools.executeTool reg w toolCall now)).
Proof.
  intros [Hres Hcalls].
  destruct (executeTool_effect reg w toolCall now) as [Hprov Hc].
  unfold worldInvariant. rewrite Hprov. split; [exact Hres|].
  destruct Hc as [-> | (c & -> & Hs & _)]; [exact Hcalls|].
  intros i c' Hi. apply lookup_app_Some in Hi as [Hi | [_ Hi]].
  - eapply Hcalls, Hi.
  - apply list_lookup_singleton_Some in Hi as [_ <-].
    unfold wellSettled. now rewrite Hs.
Qed.

Lemma evolves_invariant {L : Js.Lowering} (w w' : World) :
  evolves w w' -> worldInvariant w -> worldInvariant w'.
Proof.
  intros Hev Hw. induction Hev as [|w1 ev _ IH|reg w1 toolCall now _ IH].
  - exact Hw.
  - now apply step_invariant.
  - now apply executeTool_invariant.
Qed.

Lemma newWorld_invariant : worldInvariant newWorld.
Proof.
  split.
  - intros k r H. cbn in H. rewrite lookup_empty in H. discriminate H.
  - intros i c H. destruct i; discriminate H.
Qed.

(** X11. In every world reached from a fresh tracker by callbacks and tool
    calls, a resolved call of [executeTask] holds a result without output
    and without error text whose success flag agrees with its exit code,
    so [execute_task] renders exactly a status line and a duration line;
    and a rejected call holds the timeout error of its own task name, the
    only failure that can follow the [await]. *)
Theorem settled_calls_of_reachable_worlds {L : Js.Lowering} (w : World) (i : nat) (c : Call) :
  reachable w ->
  calls w !! i = Some c ->
  (forall r,
      call_settled c = Some (Resolved r) ->
      output r = None /\ error r = None
      /\ (forall code, exitCode r = Some code -> success r = (code =? 0))
      /\ MCPTools.executeToolResume "execute_task" (Resolved r)
         = {| text := "Task '" +:+ taskName r +:+ "' execution "
                      +:+ (if success r then "SUCCESS" else "FAILED")
                      +:+ match exitCode r with
                          | Some code => " (exit code: " +:+ Js.ofZ code +:+ ")"
                          | None => ""
                          end
                      +:+ nl +:+ ("Duration: " +:+ Js.ofZ (duration r) +:+ "ms");
              isError := negb (success r) |})
  /\ (forall e,
        call_settled c = Some (Rejected e) ->
        e = timeoutError (call_taskName c)
        /\ MCPTools.executeToolResume "execute_task" (Rejected e)
           = {| text := "Error executing tool 'execute_task': Task '" +:+ call_taskName c
                        +:+ "' timed out after 5 minutes";
                isError := true |}).
Proof.
  intros Hreach Hc.
  pose proof (evolves_invariant _ _ Hreach newWorld_invariant) as [_ Hcalls].
  pose proof (Hcalls _ _ Hc) as Hwell. unfold wellSettled in Hwell.
  split.
  - intros r Hr. rewrite Hr in Hwell. destruct Hwell as (Ho & He & Hcode).
    repeat (split; [assumption|]).
    unfold MCPTools.executeToolResume, MCPTools.executeTaskResume.
    rewrite Ho, He. cbn [Js.truthyOpt]. f_equal.
    now rewrite ?append_nil, ?append_empty_r.
  - intros e He. rewrite He in Hwell. subst e. split; reflexivity.
Qed.

Lemma settled_calls_of_reachable_worlds_witness :
  let w := run (snd (MCPTools.executeTool (L := asciiLowering) sampleRegistry newWorld
                       {| tool_name := "execute_task";
                          tool_arguments := taskNameArgs "build" None |} 1000))
               [DidStartTask npmBuild; TimeoutFired 0] in
  MCPTools.executeToolResume "execute_task" (Rejected (timeoutError "build"))
  = {| text := "Error executing tool 'execute_task': Task 'build' timed out after 5 minutes";
       isError := true |}.
Proof.
  intros w.
  assert (Hreach : reachable (L := asciiLowering) w).
  { unfold reachable. eapply (evolves_step _ _ (TimeoutFired 0)).
    eapply (evolves_step _ _ (DidStartTask npmBuild)).
    apply (evolves_tool newWorld sampleRegistry newWorld). apply evolves_here. }
  destruct (settled_calls_of_reachable_worlds (L := asciiLowering) w 0
              {| call_taskId := getTaskId npmBuild; call_taskName := "build";
                 call_startTime := 1000; call_polling := true; call_timer := false;
                 call_settled := Some (Rejected (timeoutError "build")) |}
              Hreach ltac:(vm_compute; reflexivity)) as [_ H].
  destruct (H (timeoutError "build") eq_refl) as [_ H2]. exact H2.
Defined.

(** ** Late start events and exit codes that are not numbers *)

(** X24. When the first poll of a call runs before the start event of its
    task has been handled, the call resolves at once with the synthesized
    successful result, whose duration is the time since the call began.
    The polling stops there, so the result that the end event of the run
    buffers later is consumed by nobody and stays in [executionResults]. *)
Theorem late_start_leaves_result (w : World) (i : nat) (c : Call) (task : Task)
    (now now0 now1 : Z) :
  calls w !! i = Some c ->
  call_settled c = None ->
  call_polling c = true ->
  JsMap.has (call_taskId c) (taskExecutions (provider w)) = false ->
  executionResults (provider w) !! call_taskId c = None ->
  getTaskId task = call_taskId c ->
  let w1 := step w (CheckCompletion i now) in
  let w2 := run w1 [DidStartTask task; DidEndTask task now0 now1; CheckCompletion i now1] in
  (exists c', calls w2 !! i = Some c'
              /\ call_settled c'
                 = Some (Resolved {| taskName := call_taskName c; exitCode := None;
                                     success := true; output := None; error := None;
                                     duration := now - call_startTime c |})
              /\ call_polling c' = false)
  /\ executionResults (provider w2) !! call_taskId c
     = Some {| taskName := task_name task; exitCode := None; success := true;
               output := None; error := None; duration := now1 - now0 |}.
Proof.
  intros Hc Hpending Hpoll Hidle Hnone Hid w1 w2.
  assert (Hlt : (i < length (calls w))%nat) by (eapply lookup_lt_Some; eassumption).
  set (c1 := {| call_taskId := call_taskId c; call_taskName := call_taskName c;
                call_startTime := call_startTime c; call_polling := false;
                call_timer := call_timer c;
                call_settled := Some (Resolved (fallbackResult c now)) |}).
  assert (Hw1 : w1 = {| provider := provider w; calls := <[i := c1]> (calls w);
                        terminated := terminated w |}).
  { subst w1. unfold step. rewrite Hc, Hpoll.
    rewrite (checkCompletion_fallback _ _ _ Hnone Hidle). subst c1.
    now rewrite Hpending. }
  assert (Hc1 : calls w1 !! i = Some c1).
  { rewrite Hw1. cbn [calls]. now apply list_lookup_insert_eq. }
  subst w2.
  change (run w1 [DidStartTask task; DidEndTask task now0 now1; CheckCompletion i now1])
    with (step (step (step w1 (DidStartTask task)) (DidEndTask task now0 now1))
               (CheckCompletion i now1)).
  set (w3 := step (step w1 (DidStartTask task)) (DidEndTask task now0 now1)).
  assert (Hc3 : calls w3 !! i = Some c1) by exact Hc1.
  assert (Hstep : step w3 (CheckCompletion i now1) = w3).
  { unfold step. now rewrite Hc3. }
  rewrite Hstep. split.
  - exists c1. split; [exact Hc3|]. split; reflexivity.
  - subst w3. cbn [step withProvider provider]. unfold onDidEndTask.
    cbn [executionResults]. rewrite Hid. apply lookup_insert_eq.
Qed.

Lemma late_start_leaves_result_witness :
  let '(_, w) := beginExecute sampleRegistry newWorld "build" None 1000 in
  let w2 := run w [CheckCompletion 0 1100; DidStartTask npmBuild;
                   DidEndTask npmBuild 9000 9000; CheckCompletion 0 9000] in
  executionResults (provider w2) !! getTaskId npmBuild
  = Some {| taskName := "build"; exitCode := None; success := true;
            output := None; error := None; duration := 0 |}.
Proof.
  destruct (late_start_leaves_result
              (snd (beginExecute sampleRegistry newWorld "build" None 1000)) 0
              {| call_taskId := getTaskId npmBuild; call_taskName := "build";
                 call_startTime := 1000; call_polling := true; call_timer := true;
                 call_settled := None |}
              npmBuild 1100 9000 9000
              eq_refl eq_refl eq_refl eq_refl ltac:(vm_compute; reflexivity) eq_refl)
    as [_ H].
  exact H.
Defined.

(** X25. A process-exit event that carries no exit code, handled after
    the end event of its run, marks the buffered result as failed and
    leaves it without exit code: the call is answered with an error
    [Outcome] that says [FAILED] and names no exit code. *)
Theorem process_exit_without_code_fails (p : TaskProvider) (task : Task)
    (r : TaskExecutionResult) :
  executionResults p !! getTaskId task = Some r ->
  output r = None ->
  error r = None ->
  let p' := onDidEndTaskProcess p task None in
  let r' := {| taskName := taskName r; exitCode := None; success := false;
               output := None; error := None; duration := duration r |} in
  executionResults p' !! getTaskId task = Some r'
  /\ MCPTools.executeToolResume "execute_task" (Resolved r')
     = {| text := "Task '" +:+ taskName r +:+ "' execution FAILED" +:+ nl
                  +:+ ("Duration: " +:+ Js.ofZ (duration r) +:+ "ms");
          isError := true |}.
Proof.
  intros Hbuf Ho He p' r'. split.
  - subst p' r'. unfold onDidEndTaskProcess. rewrite Hbuf, Ho, He.
    cbn [executionResults]. apply lookup_insert_eq.
  - unfold MCPTools.executeToolResume, MCPTools.executeTaskResume. subst r'.
    cbn [success exitCode duration output error taskName Js.truthyOpt negb].
    f_equal. rewrite ?append_nil, ?append_empty_r. reflexivity.
Qed.

Lemma process_exit_without_code_fails_witness :
  let p := onDidEndTask (onDidStartTask newTaskProvider npmBuild) npmBuild 70 75 in
  executionResults (onDidEndTaskProcess p npmBuild None) !! getTaskId npmBuild
  = Some {| taskName := "build"; exitCode := None; success := false;
            output := None; error := None; duration := 5 |}.
Proof.
  intros p.
  destruct (process_exit_without_code_fails p npmBuild
              {| taskName := "build"; exitCode := None; success := true;
                 output := None; error := None; duration := 5 |}
              ltac:(vm_compute; reflexivity) eq_refl eq_refl) as [H _].
  exact H.
Defined.

(** * Further properties of the tool operations *)

(** ** Advertised tools and the dispatch *)

Lemma known_tool_cases (name : string) :
  In name (List.map spec_name getAvailableTools) ->
  name = "list_tasks" \/ name = "execute_task" \/ name = "get_running_tasks"
  \/ name = "terminate_task" \/ name = "get_task_details".
Proof. cbn. intuition auto. Qed.

(** Closes a goal [H -> _] where [H] equates a handler's answer with an
    answer that it cannot give. *)
Ltac wrong_answer :=
  let H := fresh "H" in
  intros H;
  first
    [ discriminate H
    | injection H; intros;
      match goal with
      | Hm : _ = String.append _ _ |- _ =>
          repeat rewrite append_cons in Hm; discriminate Hm
      end ].

(** X12. The tools that [getAvailableTools] advertises are exactly the
    tools that the [switch] of [executeTool] knows: a call fails with
    [Unknown tool: X] if and only if [X] is not an advertised name,
    whatever the registry, the state and the arguments are. *)
Theorem unknown_tool_iff_not_advertised {L : Js.Lowering}
    (reg : Registry) (w : World) (name : string)
    (args : Args) (now : Z) :
  fst (MCPTools.switchTool reg w {| tool_name := name; tool_arguments := args |} now)
  = Throw (Js.JsError ("Unknown tool: " +:+ name))
  <-> ~ In name (List.map spec_name getAvailableTools).
Proof.
  split.
  - intros Hthrow Hin.
    destruct (MCPTools.switchTool reg w {| tool_name := name; tool_arguments := args |} now)
      as [r w'] eqn:Hswitch.
    cbn [fst] in Hthrow. subst r.
    apply known_tool_cases in Hin.
    revert Hswitch. unfold MCPTools.switchTool.
    cbn [tool_name tool_arguments].
    destruct Hin as [-> | [-> | [-> | [-> | ->]]]]; cbn -[String.append].
    + unfold MCPTools.listTasks, getAllTasks.
      destruct (reg_fetchTasks reg); cbn -[String.append]; wrong_answer.
    + unfold MCPTools.executeTask, beginExecute.
      destruct (arg_taskName args) as [n|]; [|wrong_answer].
      destruct (Js.truthy n); [|wrong_answer].
      destruct (executeTask reg n (arg_source args) now) as [c|e] eqn:Hexec;
        [wrong_answer|].
      revert Hexec. unfold executeTask, tryCatch.
      destruct (_ ≫= _); [discriminate|].
      intros He. injection He as <-. wrong_answer.
    + unfold MCPTools.getRunningTasks.
      destruct (Nat.eqb _ 0); cbn; wrong_answer.
    + unfold MCPTools.terminateTask.
      destruct (arg_taskName args) as [n|]; [|wrong_answer].
      destruct (Js.truthy n); [|wrong_answer].
      destruct (terminateTask (provider w) n). cbn. wrong_answer.
    + unfold MCPTools.getTaskDetails, getAllTasks.
      destruct (arg_taskName args) as [n|]; [|wrong_answer].
      destruct (Js.truthy n); [|wrong_answer].
      destruct (reg_fetchTasks reg); cbn -[String.append MCPTools.findTaskInfo];
        [|wrong_answer].
      destruct (MCPTools.findTaskInfo _ _ _); cbn; wrong_answer.
  - intros Hnot. unfold MCPTools.switchTool. cbn [tool_name tool_arguments].
    cbn in Hnot.
    destruct (String.eqb_spec name "list_tasks"); [exfalso; auto|].
    destruct (String.eqb_spec name "execute_task"); [exfalso; auto|].
    destruct (String.eqb_spec name "get_running_tasks"); [exfalso; auto|].
    destruct (String.eqb_spec name "terminate_task"); [exfalso; auto 6|].
    destruct (String.eqb_spec name "get_task_details"); [exfalso; auto 7|].
    reflexivity.
Qed.

(** X13. The schema of an advertised tool lists [taskName] as required
    if and only if the tool's handler rejects every call whose [taskName]
    is missing or empty with [taskName is required], before it uses the
    registry or the tracker. *)
Theorem required_taskName_is_enforced {L : Js.Lowering} (spec : ToolSpec) :
  In spec getAvailableTools ->
  In "taskName" (requiredOf spec)
  <-> forall reg w args now,
        Js.truthyOpt (arg_taskName args) = false ->
        MCPTools.switchTool reg w {| tool_name := spec_name spec; tool_arguments := args |} now
        = (Throw (Js.JsError "taskName is required"), w).
Proof.
  intros Hin.
  assert (Hknown : forall name reg w args now,
            name = "execute_task" \/ name = "terminate_task" \/ name = "get_task_details" ->
            Js.truthyOpt (arg_taskName args) = false ->
            MCPTools.switchTool reg w {| tool_name := name; tool_arguments := args |} now
            = (Throw (Js.JsError "taskName is required"), w)).
  { intros name reg w args now Hname Hfalsy. unfold MCPTools.switchTool.
    destruct Hname as [-> | [-> | ->]];
      cbn -[MCPTools.executeTask MCPTools.terminateTask MCPTools.getTaskDetails];
      unfold MCPTools.executeTask, MCPTools.terminateTask, MCPTools.getTaskDetails;
      destruct (arg_taskName args) as [n|]; cbn in Hfalsy; try rewrite Hfalsy;
      reflexivity. }
  cbn in Hin. destruct Hin as [<- | [<- | [<- | [<- | [<- | []]]]]];
    cbn -[MCPTools.switchTool]; split.
  - intros [].
  - intros H. exfalso.
    specialize (H sampleRegistry newWorld noArgs 0 eq_refl). vm_compute in H.
    discriminate H.
  - intros _ reg w args now. apply Hknown. auto.
  - auto.
  - intros [].
  - intros H. exfalso.
    specialize (H sampleRegistry newWorld noArgs 0 eq_refl). vm_compute in H.
    discriminate H.
  - intros _ reg w args now. apply Hknown. auto.
  - auto.
  - intros _ reg w args now. apply Hknown. auto.
  - auto.
Qed.

Lemma required_taskName_is_enforced_witness :
  MCPTools.switchTool (L := asciiLowering) sampleRegistry newWorld
    {| tool_name := "get_task_details"; tool_arguments := taskNameArgs "" (Some "npm") |} 0
  = (Throw (Js.JsError "taskName is required"), newWorld).
Proof.
  destruct (required_taskName_is_enforced (L := asciiLowering)
              {| spec_name := "get_task_details";
                 spec_description := "Get detailed information about a specific task";
                 spec_properties :=
                   [ {| prop_name := "taskName"; prop_type := "string";
                        prop_description := "Name of the task to get details for" |};
                     {| prop_name := "source"; prop_type := "string";
                        prop_description := "Optional source of the task" |} ];
                 spec_required := Some ["taskName"] |}
              ltac:(cbn; auto 10)) as [H _].
  exact (H ltac:(cbn; auto) sampleRegistry newWorld (taskNameArgs "" (Some "npm")) 0 eq_refl).
Defined.

(** ** Task details *)

Lemma find_map {A B : Type} (g : A -> B) (f : B -> bool) (l : list A) :
  List.find f (List.map g l) = g <$> List.find (fun x => f (g x)) l.
Proof.
  induction l as [|x l IH]; simpl; [reflexivity|].
  destruct (f (g x)); [reflexivity | exact IH].
Qed.

(** X14. When the registry answers and the task name is not empty,
    [get_task_details] never throws; its [Outcome] is an error exactly
    when no task has the name, with the text [Task 'X' not found.], and
    otherwise it renders the first task with that name in the registry's
    order. *)
Theorem getTaskDetails_found_iff (reg : Registry) (tasks : list Task) (name : string)
    (args : Args) :
  reg_fetchTasks reg = Ok tasks ->
  arg_taskName args = Some name ->
  name <> "" ->
  exists o,
    MCPTools.getTaskDetails reg args = Ok o
    /\ (isError o = true <-> forall task, In task tasks -> task_name task <> name)
    /\ (isError o = true -> text o = "Task '" +:+ name +:+ "' not found.")
    /\ (forall pre task post,
          tasks = (pre ++ task :: post)%list ->
          (forall t, In t pre -> task_name t <> name) ->
          task_name task = name ->
          o = {| text := Js.join nl (MCPTools.taskDetails (toTaskInfo task));
                 isError := false |}).
Proof.
  intros Hfetch Hname Hne.
  unfold MCPTools.getTaskDetails, getAllTasks. rewrite Hname, Hfetch.
  apply truthy_true in Hne. rewrite Hne.
  cbn -[MCPTools.findTaskInfo String.append].
  rewrite findTaskInfo_by_name, find_map. cbn [info_name toTaskInfo].
  destruct (List.find (fun x => String.eqb (task_name x) name) tasks) as [t|] eqn:Hfind;
    cbn -[String.append MCPTools.taskDetails].
  - eexists. split; [reflexivity|]. cbn [isError text].
    apply List.find_some in Hfind as Hsome. destruct Hsome as [Hin Heq].
    apply String.eqb_eq in Heq.
    split; [|split].
    + split; [discriminate|]. intros Hno. exfalso. exact (Hno t Hin Heq).
    + discriminate.
    + intros pre task post Htasks Hpre Htask. subst tasks.
      rewrite find_app_first in Hfind.
      * now inversion Hfind.
      * intros x Hx. apply String.eqb_neq. now apply Hpre.
      * now apply String.eqb_eq.
  - eexists. split; [reflexivity|]. cbn [isError text].
    split; [|split].
    + split; [|reflexivity]. intros _ task Hin Heq.
      pose proof (List.find_none _ _ Hfind _ Hin) as Hno. cbn in Hno.
      apply String.eqb_neq in Hno. contradiction.
    + reflexivity.
    + intros pre task post Htasks Hpre Htask. subst tasks.
      rewrite find_app_first in Hfind; [discriminate| |now apply String.eqb_eq].
      intros x Hx. apply String.eqb_neq. now apply Hpre.
Qed.

Lemma getTaskDetails_found_iff_witness :
  exists o,
    MCPTools.getTaskDetails sampleRegistry (taskNameArgs "lint" None) = Ok o
    /\ isError o = true /\ text o = "Task 'lint' not found.".
Proof.
  destruct (getTaskDetails_found_iff sampleRegistry [npmBuild; gruntBuild] "lint"
              (taskNameArgs "lint" None) eq_refl eq_refl ltac:(discriminate))
    as (o & Ho & Hiff & Htext & _).
  assert (Herr : isError o = true).
  { apply Hiff. intros task [<-|[<-|[]]]; discriminate. }
  exists o. split; [exact Ho|]. split; [exact Herr | exact (Htext Herr)].
Defined.

(** ** The filter of [list_tasks] *)

Lemma filterTasks_truthy {L : Js.Lowering} (f : string) (infos : list TaskInfo) :
  MCPTools.filterTasks (Some f) infos
  = if Js.truthy (Js.toLowerCase f)
    then List.filter (MCPTools.matchesFilter (Js.toLowerCase f)) infos
    else infos.
Proof. unfold MCPTools.filterTasks. now rewrite Js.toLowerCase_truthy. Qed.

(** X15. [list_tasks] ignores the case of its filter: for two filters of
    ASCII text that differ only in the case of their letters, [listTasks]
    keeps the same descriptors, and presents them with the filter as it
    was given. *)
Theorem filter_ignores_case {L : Js.Lowering} (reg : Registry)
    (infos : list TaskInfo) (f f' : string) :
  getAllTasks reg = Ok infos ->
  Js.isAscii f = true ->
  Js.isAscii f' = true ->
  equalIgnoringCase f f' = true ->
  MCPTools.filterTasks (Some f) infos = MCPTools.filterTasks (Some f') infos
  /\ MCPTools.listTasks reg (filterArgs f)
     = Ok (listing (Some f) (MCPTools.filterTasks (Some f) infos))
  /\ MCPTools.listTasks reg (filterArgs f')
     = Ok (listing (Some f') (MCPTools.filterTasks (Some f) infos)).
Proof.
  intros Hinfos Hf Hf' Heq.
  assert (Hlower : Js.toLowerCase f = Js.toLowerCase f').
  { rewrite (Js.toLowerCase_ascii f Hf), (Js.toLowerCase_ascii f' Hf').
    now apply equalIgnoringCase_spec. }
  assert (Hsame : MCPTools.filterTasks (Some f) infos
                  = MCPTools.filterTasks (Some f') infos).
  { now rewrite !filterTasks_truthy, Hlower. }
  split; [exact Hsame|].
  rewrite !(listTasks_listing _ _ _ Hinfos). cbn [arg_filter filterArgs].
  now rewrite Hsame.
Qed.

Lemma filter_ignores_case_witness :
  MCPTools.listTasks (L := asciiLowering) sampleRegistry (filterArgs "GRUNT")
  = Ok (listing (Some "GRUNT") [toTaskInfo gruntBuild])
  /\ MCPTools.listTasks (L := asciiLowering) sampleRegistry (filterArgs "grunt")
     = Ok (listing (Some "grunt") [toTaskInfo gruntBuild]).
Proof.
  destruct (filter_ignores_case (L := asciiLowering) sampleRegistry
              (List.map toTaskInfo [npmBuild; gruntBuild]) "GRUNT" "grunt"
              eq_refl eq_refl eq_refl eq_refl) as (_ & H & H').
  split; [rewrite H | rewrite H']; vm_compute; reflexivity.
Defined.

Lemma includes_trans (s b a : string) :
  Js.includes s b = true -> Js.includes b a = true -> Js.includes s a = true.
Proof.
  rewrite !includes_app. intros (p & q & ->) (p' & q' & ->).
  exists (p +:+ p'), (q' +:+ q). now rewrite !string_app_assoc.
Qed.

Lemma includes_empty_l (a : string) : Js.includes "" a = true -> a = "".
Proof.
  rewrite includes_app. intros (p & q & H). symmetry in H.
  apply append_empty in H as [_ H]. now apply append_empty in H as [H _].
Qed.

(** X16. A filter that contains another one keeps fewer tasks: when the
    lower-cased [f] occurs in the lower-cased [f'], every descriptor that
    [listTasks] keeps and presents for [f'] is kept and presented for
    [f]. *)
Theorem longer_filter_keeps_fewer {L : Js.Lowering} (reg : Registry)
    (infos : list TaskInfo) (f f' : string) :
  getAllTasks reg = Ok infos ->
  Js.includes (Js.toLowerCase f') (Js.toLowerCase f) = true ->
  MCPTools.listTasks reg (filterArgs f)
  = Ok (listing (Some f) (MCPTools.filterTasks (Some f) infos))
  /\ MCPTools.listTasks reg (filterArgs f')
     = Ok (listing (Some f') (MCPTools.filterTasks (Some f') infos))
  /\ forall task,
       In task (MCPTools.filterTasks (Some f') infos) ->
       In task (MCPTools.filterTasks (Some f) infos).
Proof.
  intros Hinfos Hsub.
  rewrite !(listTasks_listing _ _ _ Hinfos). cbn [arg_filter filterArgs].
  split; [reflexivity|]. split; [reflexivity|].
  intros task. unfold MCPTools.filterTasks.
  destruct (Js.truthy f) eqn:Hf.
  - assert (Hf' : Js.truthy f' = true).
    { destruct (Js.truthy f') eqn:Hf'; [reflexivity|].
      apply truthy_false in Hf'. subst f'. rewrite toLowerCase_nil in Hsub.
      apply includes_empty_l, toLowerCase_empty in Hsub. subst f. discriminate Hf. }
    rewrite Hf'. rewrite !List.filter_In. intros [Hin Hmatch]. split; [exact Hin|].
    unfold MCPTools.matchesFilter in *.
    apply orb_true_iff in Hmatch as [Hmatch | Hgroup].
    + apply orb_true_iff in Hmatch as [Hn | Hs].
      * rewrite (includes_trans _ _ _ Hn Hsub). reflexivity.
      * rewrite (includes_trans _ _ _ Hs Hsub). now rewrite orb_true_r.
    + destruct (info_group task) as [g|]; [|discriminate].
      apply andb_true_iff in Hgroup as [Hg Hi].
      rewrite Hg, (includes_trans _ _ _ Hi Hsub). now rewrite !orb_true_r.
  - destruct (Js.truthy f'); [|auto]. rewrite List.filter_In. tauto.
Qed.

Lemma longer_filter_keeps_fewer_witness :
  In (toTaskInfo gruntBuild)
     (MCPTools.filterTasks (L := asciiLowering) (Some "RUN")
        (List.map toTaskInfo [npmBuild; gruntBuild]))
  /\ MCPTools.listTasks (L := asciiLowering) sampleRegistry (filterArgs "RUN")
     = Ok (listing (Some "RUN") [toTaskInfo gruntBuild]).
Proof.
  destruct (longer_filter_keeps_fewer (L := asciiLowering) sampleRegistry
              (List.map toTaskInfo [npmBuild; gruntBuild]) "RUN" "Grunt"
              eq_refl ltac:(vm_compute; reflexivity)) as (H & _ & Hin).
  split.
  - apply Hin. vm_compute. auto.
  - rewrite H. vm_compute. reflexivity.
Defined.

(** ** Enumerated descriptors *)

(** X17. [getAllTasks] answers with one descriptor per task of the
    registry, in the registry's order; every descriptor has a non-empty
    group, [none] when the task has no group kind, a task without scope is
    reported in the [workspace] scope, and a shell or process execution is
    reported with a command and an argument list. A failure of the
    registry is thrown on as an [Error] whose message starts with
    [Failed to fetch tasks: ]. *)
Theorem getAllTasks_descriptors (reg : Registry) :
  match reg_fetchTasks reg with
  | Ok tasks =>
      exists infos,
        getAllTasks reg = Ok infos
        /\ length infos = length tasks
        /\ forall i task,
             tasks !! i = Some task ->
             exists info,
               infos !! i = Some info
               /\ info_name info = task_name task
               /\ info_source info = task_source task
               /\ (exists g, info_group info = Some g /\ g <> ""
                             /\ (Js.truthyOpt (task_groupKind task) = false -> g = "none"))
               /\ (task_scope task = None -> info_scope info = "workspace")
               /\ (forall e, info_execution info = Some e ->
                             exec_type e <> custom ->
                             exists command args,
                               exec_command e = Some command /\ exec_args e = Some args)
  | Throw e =>
      getAllTasks reg
      = Throw (Js.JsError ("Failed to fetch tasks: " +:+ Js.messageOr "Unknown error" e))
  end.
Proof.
  unfold getAllTasks. destruct (reg_fetchTasks reg) as [tasks|e]; [|reflexivity].
  cbn -[String.append]. eexists. split; [reflexivity|].
  split; [apply List.length_map|].
  intros i task Hi. exists (toTaskInfo task). split.
  - change (List.map toTaskInfo tasks) with (toTaskInfo <$> tasks).
    now rewrite list_lookup_fmap, Hi.
  - split; [reflexivity|]. split; [reflexivity|]. split; [|split].
    + cbn [info_group toTaskInfo]. eexists. split; [reflexivity|].
      unfold Js.orElse, Js.truthyOpt.
      destruct (task_groupKind task) as [g|].
      * destruct (Js.truthy g) eqn:Hg.
        -- split; [now apply truthy_true | discriminate].
        -- split; [discriminate | reflexivity].
      * split; [discriminate | reflexivity].
    + intros Hscope. cbn [info_scope toTaskInfo]. now rewrite Hscope.
    + cbn [info_execution toTaskInfo]. unfold getExecutionInfo. intros e He Hty.
      destruct (task_execution task) as [[commandLine command args|proc args|]|];
        inversion He; subst e; cbn in *; eauto. contradiction.
Qed.

(** * Properties of the JSON-RPC dispatch *)

Lemma executeTool_awaits {L : Js.Lowering}
    (reg : Registry) (w w' : World) (toolCall : ToolCall) (now : Z)
    (i : nat) :
  MCPTools.executeTool reg w toolCall now = (Awaits i, w') ->
  tool_name toolCall = "execute_task"
  /\ i = length (calls w)
  /\ exists c, calls w' = (calls w ++ [c])%list /\ call_settled c = None.
Proof.
  unfold MCPTools.executeTool, MCPTools.switchTool.
  destruct (String.eqb (tool_name toolCall) "list_tasks").
  { destruct (MCPTools.listTasks reg (tool_arguments toolCall)); cbn; discriminate. }
  destruct (String.eqb_spec (tool_name toolCall) "execute_task") as [Hname|_].
  { unfold MCPTools.executeTask, beginExecute.
    destruct (arg_taskName (tool_arguments toolCall)) as [name|]; [|cbn; discriminate].
    destruct (Js.truthy name); [|cbn; discriminate].
    destruct (executeTask reg name (arg_source (tool_arguments toolCall)) now)
      as [c|e] eqn:Hexec; [|cbn; discriminate].
    intros H. inversion H; subst. split; [exact Hname|]. split; [reflexivity|].
    exists c. split; [reflexivity|].
    now destruct (executeTask_ok _ _ _ _ _ Hexec) as (_ & _ & _ & _ & Hs & _). }
  destruct (String.eqb (tool_name toolCall) "get_running_tasks").
  { destruct (MCPTools.getRunningTasks reg); cbn; discriminate. }
  destruct (String.eqb (tool_name toolCall) "terminate_task").
  { destruct (MCPTools.terminateTask w (tool_arguments toolCall)) as [[o|e] w1];
      cbn; discriminate. }
  destruct (String.eqb (tool_name toolCall) "get_task_details").
  { destruct (MCPTools.getTaskDetails reg (tool_arguments toolCall)); cbn; discriminate. }
  cbn. discriminate.
Qed.

Lemma handleToolsCall_cases {L : Js.Lowering}
    (reg : Registry) (w : World) (params : option Params) (now : Z) :
  (Js.truthyOpt (params ≫= param_name) = false
   /\ handleToolsCall reg w params now = (Throw (Js.JsError "Tool name is required"), w))
  \/ (exists ps name,
        params = Some ps /\ param_name ps = Some name /\ Js.truthy name = true
        /\ handleToolsCall reg w params now
           = (Ok (fst (MCPTools.executeTool reg w
                         {| tool_name := name;
                            tool_arguments := default noArgs (param_arguments ps) |} now)),
              snd (MCPTools.executeTool reg w
                     {| tool_name := name;
                        tool_arguments := default noArgs (param_arguments ps) |} now))).
Proof.
  unfold handleToolsCall. destruct params as [ps|]; [|left; auto].
  cbn [mbind option_bind]. destruct (param_name ps) as [name|] eqn:Hn; [|left; auto].
  cbn [Js.truthyOpt]. destruct (Js.truthy name) eqn:Ht; [|left; auto].
  right. exists ps, name. repeat split; try assumption.
  now destruct (MCPTools.executeTool reg w _ now).
Qed.

(** X18. A message with an [id] is answered exactly once on an open
    socket: with a response that carries the request's [id], or with an
    error of code -32603. The only request whose answer is deferred is a
    [tools/call] of [execute_task] that has started a task; it is answered
    with a response carrying the request's [id] however the promise of its
    call settles. A message without [id] is never answered and changes
    nothing, whatever its method. *)
Theorem request_is_answered_once {L : Js.Lowering}
    (reg : Registry) (w : World) (message : RpcMessage)
    (now : Z) :
  match rpc_id message with
  | None => handleMessage reg w true message now = (Sent [], w)
  | Some id =>
      match handleMessage reg w true message now with
      | (Sent out, _) =>
          (exists result, out = [ResponseMessage (Some id) result])
          \/ (exists message, out = [ErrorMessage (idOrZero (Some id)) (-32603) message])
      | (AwaitingCall i id' toolName, w') =>
          id' = Some id /\ toolName = "execute_task"
          /\ rpc_method message = Some "tools/call"
          /\ i = length (calls w)
          /\ (exists c, calls w' = (calls w ++ [c])%list /\ call_settled c = None)
          /\ forall s,
               handleMessageResume true id' toolName s
               = [ResponseMessage (Some id)
                    (ToolCallResult (MCPTools.executeToolResume "execute_task" s))]
      end
  end.
Proof.
  unfold handleMessage. destruct (rpc_id message) as [id|]; [|reflexivity].
  unfold handleRequest. destruct (rpc_method message) as [method|];
    [|right; eexists; reflexivity].
  destruct (String.eqb method "initialize"); [left; eexists; reflexivity|].
  destruct (String.eqb method "tools/list"); [left; eexists; reflexivity|].
  destruct (String.eqb_spec method "tools/call") as [->|_].
  - destruct (handleToolsCall_cases reg w (rpc_params message) now)
      as [[_ ->] | (ps & name & Hps & Hname & _ & ->)];
      [right; eexists; reflexivity|].
    destruct (MCPTools.executeTool reg w _ now) as [[o|i] w'] eqn:Htool; cbn [fst snd].
    + left. eexists. reflexivity.
    + apply executeTool_awaits in Htool as (Htn & Hi & Hc). cbn [tool_name] in Htn.
      rewrite Hps. cbn [mbind option_bind]. rewrite Hname. cbn -[String.append].
      subst name. repeat split; assumption || reflexivity.
  - destruct (String.eqb method "ping"); [left; eexists; reflexivity|].
    right. eexists. reflexivity.
Qed.

(** X19. A request is answered with a JSON-RPC error exactly when its
    method is not one of [initialize], [tools/list], [tools/call] and
    [ping], or when it is a [tools/call] without a tool name. The error
    has code -32603, nothing has been executed, and its [id] is the
    request's [id] unless that is [null] or the empty string, which the
    error replaces by 0. *)
Theorem request_error_iff {L : Js.Lowering}
    (reg : Registry) (w : World) (message : RpcMessage) (now : Z)
    (id : JsonId) :
  rpc_id message = Some id ->
  ((exists text w',
       handleMessage reg w true message now
       = (Sent [ErrorMessage (idOrZero (Some id)) (-32603) text], w'))
   <-> (rpc_method message <> Some "initialize"
        /\ rpc_method message <> Some "tools/list"
        /\ rpc_method message <> Some "ping"
        /\ (rpc_method message = Some "tools/call" ->
            Js.truthyOpt (rpc_params message ≫= param_name) = false)))
  /\ (forall text w',
        handleMessage reg w true message now
        = (Sent [ErrorMessage (idOrZero (Some id)) (-32603) text], w') ->
        w' = w
        /\ (text = "Tool name is required"
            \/ text = "Unknown method: " +:+ methodTemplate (rpc_method message)))
  /\ (idOrZero (Some id) = id <-> id <> IdNull /\ id <> IdString "").
Proof.
  intros Hid.
  assert (Hcases :
    (exists result w', handleMessage reg w true message now
                       = (Sent [ResponseMessage (Some id) result], w')
                       /\ (rpc_method message = Some "initialize"
                           \/ rpc_method message = Some "tools/list"
                           \/ rpc_method message = Some "ping"
                           \/ (rpc_method message = Some "tools/call"
                               /\ Js.truthyOpt (rpc_params message ≫= param_name) = true)))
    \/ (exists i name w', handleMessage reg w true message now
                          = (AwaitingCall i (Some id) name, w')
                          /\ rpc_method message = Some "tools/call"
                          /\ Js.truthyOpt (rpc_params message ≫= param_name) = true)
    \/ (handleMessage reg w true message now
        = (Sent [ErrorMessage (idOrZero (Some id)) (-32603) "Tool name is required"], w)
        /\ rpc_method message = Some "tools/call"
        /\ Js.truthyOpt (rpc_params message ≫= param_name) = false)
    \/ (handleMessage reg w true message now
        = (Sent [ErrorMessage (idOrZero (Some id)) (-32603)
                   ("Unknown method: " +:+ methodTemplate (rpc_method message))], w)
        /\ rpc_method message <> Some "initialize"
        /\ rpc_method message <> Some "tools/list"
        /\ rpc_method message <> Some "ping"
        /\ rpc_method message <> Some "tools/call")).
  { unfold handleMessage. rewrite Hid. unfold handleRequest.
    destruct (rpc_method message) as [method|].
    2:{ right; right; right. split; [reflexivity|]. repeat split; discriminate. }
    destruct (String.eqb_spec method "initialize") as [->|Hn1].
    { left. eexists; eexists. split; [reflexivity | auto]. }
    destruct (String.eqb_spec method "tools/list") as [->|Hn2].
    { left. eexists; eexists. split; [reflexivity | auto]. }
    destruct (String.eqb_spec method "tools/call") as [->|Hn3].
    { destruct (handleToolsCall_cases reg w (rpc_params message) now)
        as [[Hfalsy ->] | (ps & name & Hps & Hname & Htruthy & ->)].
      - right; right; left. auto.
      - assert (Ht : Js.truthyOpt (rpc_params message ≫= param_name) = true).
        { rewrite Hps. cbn [mbind option_bind]. now rewrite Hname. }
        destruct (MCPTools.executeTool reg w _ now) as [[o|i] w']; cbn [fst snd].
        + left. eexists; eexists. split; [reflexivity | auto 6].
        + right; left. eexists; eexists; eexists. split; [reflexivity | auto]. }
    destruct (String.eqb_spec method "ping") as [->|Hn4].
    { left. eexists; eexists. split; [reflexivity | auto]. }
    right; right; right. split; [reflexivity|]. repeat split; congruence. }
  split; [|split].
  - split.
    + intros (text & w' & Herr).
      destruct Hcases as [(r & w1 & H & _) | [(i & n & w1 & H & _) | [(H & Hm & Hf) | (H & H1 & H2 & H3 & H4)]]];
        rewrite H in Herr; try discriminate Herr.
      * rewrite Hm. repeat split; try discriminate. auto.
      * repeat split; try assumption. intros Hm. contradiction.
    + intros (H1 & H2 & H3 & H4).
      destruct Hcases as [(r & w1 & _ & [Hm | [Hm | [Hm | [Hm Ht]]]]) | [(i & n & w1 & _ & Hm & Ht) | [(H & _) | (H & _)]]];
        try contradiction; try (rewrite (H4 Hm) in Ht; discriminate Ht);
        eexists; eexists; exact H.
  - intros text w' Herr.
    destruct Hcases as [(r & w1 & H & _) | [(i & n & w1 & H & _) | [(H & _) | (H & _)]]];
      rewrite H in Herr; try discriminate Herr; inversion Herr; auto.
  - unfold idOrZero. destruct id as [n|s|].
    + destruct (Z.eqb_spec n 0) as [->|_]; (split; [intros _; split; discriminate | reflexivity]).
    + destruct (Js.truthy s) eqn:Hs.
      * apply truthy_true in Hs.
        split; [intros _; split; [discriminate | congruence] | reflexivity].
      * apply truthy_false in Hs. subst s.
        split; [discriminate | intros [_ H]; contradiction].
    + split; [discriminate | intros [H _]; contradiction].
Qed.

Lemma request_error_iff_witness :
  handleMessage (L := asciiLowering) sampleRegistry newWorld true
    {| rpc_id := Some IdNull; rpc_method := Some "tools/run"; rpc_params := None |} 0
  = (Sent [ErrorMessage (IdNumber 0) (-32603) "Unknown method: tools/run"], newWorld).
Proof.
  destruct (request_error_iff (L := asciiLowering) sampleRegistry newWorld
              {| rpc_id := Some IdNull; rpc_method := Some "tools/run"; rpc_params := None |}
              0 IdNull eq_refl) as ([_ Hiff] & Hwhat & _).
  destruct Hiff as (text & w' & H);
    [repeat split; discriminate|].
  destruct (Hwhat text w' H) as [-> [-> | ->]]; [|exact H].
  vm_compute in H. discriminate H.
Defined.

(** X20. A request that arrives on a socket that is no longer open is
    executed all the same: the state after it is the state that the same
    request leaves on an open socket, so a task is started or terminated,
    but nothing is sent, neither at once nor when the awaited call has
    settled. *)
Theorem closed_socket_executes_silently {L : Js.Lowering}
    (reg : Registry) (w : World) (message : RpcMessage)
    (now : Z) :
  snd (handleMessage reg w false message now) = snd (handleMessage reg w true message now)
  /\ match fst (handleMessage reg w false message now) with
     | Sent out => out = []
     | AwaitingCall i id toolName =>
         fst (handleMessage reg w true message now) = AwaitingCall i id toolName
         /\ forall s, handleMessageResume false id toolName s = []
     end.
Proof.
  unfold handleMessage. destruct (rpc_id message) as [id|]; [|split; reflexivity].
  destruct (handleRequest reg w message now) as [[[r|i name]|e] w'];
    cbn; auto.
Qed.

(** * Properties of the logger *)

Lemma tl_drop_snoc {A : Type} (n : nat) (l : list A) (e : A) :
  (if Nat.ltb n (length (drop (length l - n) l ++ [e]))
   then List.tl (drop (length l - n) l ++ [e])
   else drop (length l - n) l ++ [e])%list
  = drop (length (l ++ [e]) - n) (l ++ [e]).
Proof.
  rewrite !length_app, length_drop. cbn [length].
  destruct (Nat.ltb_spec n (length l - (length l - n) + 1)) as [Hlt|Hge].
  - assert (Hn : (n <= length l)%nat) by lia.
    replace (length l + 1 - n)%nat with (S (length l - n)) by lia.
    destruct (drop (length l - n) l) as [|x rest] eqn:Hdrop.
    + assert (Hlen : length (drop (length l - n) l) = 0%nat) by now rewrite Hdrop.
      rewrite length_drop in Hlen. cbn [app List.tl].
      rewrite drop_ge; [reflexivity|]. rewrite length_app. cbn [length]. lia.
    + assert (Hlen : length (drop (length l - n) l) = S (length rest)) by now rewrite Hdrop.
      rewrite length_drop in Hlen. cbn [app List.tl].
      rewrite drop_app_le by lia.
      replace (S (length l - n)) with (length l - n + 1)%nat by lia.
      rewrite <- (drop_drop l 1 (length l - n)), Hdrop. reflexivity.
  - replace (length l - n)%nat with 0%nat by lia.
    replace (length l + 1 - n)%nat with 0%nat by lia. reflexivity.
Qed.

Lemma logAll_snoc (l : Logger) (entries : list LogEntry) (entry : LogEntry) :
  logAll l (entries ++ [entry]) = log (logAll l entries) entry.
Proof. unfold logAll. now rewrite fold_left_app. Qed.

(** X21. The in-memory log keeps the newest [maxLogs] = 1000 entries, in
    the order in which they were logged: after any number of [log] calls it
    holds the last 1000 of the entries it held before followed by the new
    ones, and never more. The output channel is not truncated: it has
    received one line for every call. *)
Theorem logger_keeps_newest (l : Logger) (entries : list LogEntry) :
  (length (logs l) <= maxLogs)%nat ->
  let l' := logAll l entries in
  let all := (logs l ++ entries)%list in
  getLogs l' = drop (length all - maxLogs) all
  /\ (length (getLogs l') <= maxLogs)%nat
  /\ outputChannel l' = (outputChannel l ++ List.map logLine entries)%list.
Proof.
  intros Hlen. cbv zeta. unfold getLogs.
  assert (H : logs (logAll l entries)
              = drop (length (logs l ++ entries) - maxLogs) (logs l ++ entries)
              /\ outputChannel (logAll l entries)
                 = (outputChannel l ++ List.map logLine entries)%list).
  { induction entries as [|entry entries IH] using rev_ind.
    - cbn [logAll fold_left]. rewrite !app_nil_r. split; [|reflexivity].
      replace (length (logs l) - maxLogs)%nat with 0%nat by lia. reflexivity.
    - destruct IH as [IHlogs IHout]. rewrite logAll_snoc. unfold log.
      cbn [logs outputChannel]. split.
      + rewrite IHlogs, app_assoc. apply tl_drop_snoc.
      + rewrite IHout, List.map_app, <- app_assoc. reflexivity. }
  destruct H as [Hlogs Hout]. split; [exact Hlogs|]. split; [|exact Hout].
  rewrite Hlogs, length_drop. lia.
Qed.

Lemma logger_keeps_newest_witness :
  let entry (n : string) :=
    {| log_timestamp := "2025-01-01T00:00:00.000Z"; log_level := INFO;
       log_message := n; log_context := None |} in
  getLogs (logAll newLogger [entry "a"; entry "b"]) = [entry "a"; entry "b"]
  /\ outputChannel (logAll newLogger [entry "a"; entry "b"])
     = ["[2025-01-01T00:00:00.000Z] [INFO] a"; "[2025-01-01T00:00:00.000Z] [INFO] b"].
Proof.
  intros entry.
  destruct (logger_keeps_newest newLogger [entry "a"; entry "b"]
              ltac:(cbn; unfold maxLogs; lia)) as (H1 & _ & H2).
  split; [exact H1 | exact H2].
Defined.

(** * Properties of the stdio server's handlers *)

(** X22. The handlers that the stdio server registers and the tool
    operations behind [executeTool] give the same answers: for a non-empty
    task name and a registry that answers, [list_tasks],
    [get_running_tasks], [get_task_details] and [terminate_task] return
    the same [Outcome] and leave the same state through either of them,
    and [execute_task] suspends on the same call and renders every
    resolved result the same way. *)
Theorem stdio_handlers_agree {L : Js.Lowering} (reg : Registry) (w : World) (tasks : list Task)
    (name : string) (source filter : option string) (now : Z) :
  reg_fetchTasks reg = Ok tasks ->
  name <> "" ->
  MCPTools.executeTool reg w
    {| tool_name := "list_tasks";
       tool_arguments := {| arg_filter := filter; arg_taskName := None;
                            arg_source := None |} |} now
  = (Returned (StdioServer.listTasks reg filter), w)
  /\ MCPTools.executeTool reg w
       {| tool_name := "get_running_tasks"; tool_arguments := noArgs |} now
     = (Returned (StdioServer.getRunningTasks reg), w)
  /\ MCPTools.executeTool reg w
       {| tool_name := "get_task_details"; tool_arguments := taskNameArgs name source |} now
     = (Returned (StdioServer.getTaskDetails reg name source), w)
  /\ MCPTools.executeTool reg w
       {| tool_name := "terminate_task"; tool_arguments := taskNameArgs name None |} now
     = (Returned (fst (StdioServer.terminateTask w name)),
        snd (StdioServer.terminateTask w name))
  /\ (forall i w',
        MCPTools.executeTool reg w
          {| tool_name := "execute_task"; tool_arguments := taskNameArgs name source |} now
        = (Awaits i, w')
        <-> StdioServer.executeTask reg w name source now = (Awaits i, w'))
  /\ (forall r,
        MCPTools.executeToolResume "execute_task" (Resolved r)
        = StdioServer.executeTaskResume name (Resolved r)).
Proof.
  intros Hfetch Hne. apply truthy_true in Hne.
  split; [|split; [|split; [|split; [|split]]]].
  - unfold MCPTools.executeTool, MCPTools.switchTool, MCPTools.listTasks,
      StdioServer.listTasks, getAllTasks.
    rewrite Hfetch. reflexivity.
  - unfold MCPTools.executeTool, MCPTools.switchTool, MCPTools.getRunningTasks,
      StdioServer.getRunningTasks.
    cbn [tool_name String.eqb Ascii.eqb Bool.eqb].
    now destruct (Nat.eqb (length (getRunningTasks reg)) 0).
  - unfold MCPTools.executeTool, MCPTools.switchTool, MCPTools.getTaskDetails,
      StdioServer.getTaskDetails, getAllTasks, MCPTools.findTaskInfo.
    cbn [tool_name tool_arguments taskNameArgs arg_taskName arg_source
         String.eqb Ascii.eqb Bool.eqb].
    rewrite Hne, Hfetch. cbn -[String.append String.eqb Js.join].
    destruct (match List.find _ (List.map toTaskInfo tasks) with
              | Some _ => _ | None => _ end); reflexivity.
  - unfold MCPTools.executeTool, MCPTools.switchTool, MCPTools.terminateTask,
      StdioServer.terminateTask.
    cbn [tool_name tool_arguments taskNameArgs arg_taskName String.eqb Ascii.eqb Bool.eqb].
    rewrite Hne. now destruct (terminateTask (provider w) name).
  - intros i w'.
    unfold MCPTools.executeTool, MCPTools.switchTool, MCPTools.executeTask,
      StdioServer.executeTask.
    cbn [tool_name tool_arguments taskNameArgs arg_taskName arg_source
         String.eqb Ascii.eqb Bool.eqb].
    rewrite Hne.
    destruct (beginExecute reg w name source now) as [[j|e] w1];
      split; intros H; inversion H; reflexivity.
  - intros r. reflexivity.
Qed.

Lemma stdio_handlers_agree_witness :
  MCPTools.executeTool (L := asciiLowering) sampleRegistry newWorld
    {| tool_name := "get_task_details"; tool_arguments := taskNameArgs "build" None |} 0
  = (Returned (StdioServer.getTaskDetails sampleRegistry "build" None), newWorld).
Proof.
  destruct (stdio_handlers_agree (L := asciiLowering)
      sampleRegistry newWorld [npmBuild; gruntBuild] "build"
              None None 0 eq_refl ltac:(discriminate)) as (_ & _ & H & _).
  exact H.
Defined.

(** X23. The stdio handlers have no check of their own for [taskName]
    and treat every name alike, the empty one included: for a name that
    no task of the registry has, [execute_task] answers with an error that
    lists every available [source:name] pair and [get_task_details] with
    [Task 'X' not found.]; for a name that no active execution has,
    [terminate_task] answers with its failure text. The state is
    unchanged in each case. *)
Theorem stdio_unknown_name (reg : Registry) (w : World) (tasks : list Task)
    (name : string) (source : option string) (now : Z) :
  reg_fetchTasks reg = Ok tasks ->
  (forall task, In task tasks -> task_name task <> name) ->
  (forall exec, In exec (JsMap.values (taskExecutions (provider w))) ->
                task_name exec <> name) ->
  StdioServer.executeTask reg w name source now
  = (Returned
       {| text := "Error executing task '" +:+ name +:+ "': "
                  +:+ "Failed to execute task '" +:+ name +:+ "': "
                  +:+ "Task '" +:+ name +:+ "' not found. Available tasks: "
                  +:+ Js.join ", "
                        (List.map (fun t => task_source t +:+ ":" +:+ task_name t) tasks);
          isError := true |},
     w)
  /\ StdioServer.getTaskDetails reg name source
     = {| text := "Task '" +:+ name +:+ "' not found."; isError := true |}
  /\ StdioServer.terminateTask w name
     = ({| text := "Failed to terminate task '" +:+ name
                   +:+ "'. Task may not be running or termination failed.";
           isError := true |},
        w).
Proof.
  intros Hfetch Hno Hidle. split; [|split].
  - unfold StdioServer.executeTask, beginExecute.
    now rewrite (executeTask_not_found _ _ _ _ _ Hfetch Hno).
  - unfold StdioServer.getTaskDetails, getAllTasks. rewrite Hfetch.
    cbn -[String.append String.eqb Js.join].
    assert (Hfind : List.find (fun task => String.eqb (info_name task) name)
                      (List.map toTaskInfo tasks) = None).
    { rewrite find_map. cbn [info_name toTaskInfo].
      now rewrite (find_name_none _ _ Hno). }
    rewrite Hfind. destruct source as [src|]; [|reflexivity].
    destruct (Js.truthy src); [|reflexivity].
    now rewrite (find_conj_none _ (fun task => String.eqb (info_source task) src) _ Hfind).
  - unfold StdioServer.terminateTask, terminateTask.
    rewrite (find_name_none _ _ Hidle). cbn -[String.append].
    now rewrite world_eta.
Qed.

Lemma stdio_unknown_name_witness :
  StdioServer.executeTask sampleRegistry newWorld "" None 0
  = (Returned
       {| text := "Error executing task '': Failed to execute task '': "
                  +:+ "Task '' not found. Available tasks: npm:build, grunt:build";
          isError := true |},
     newWorld)
  /\ fst (MCPTools.executeTool (L := asciiLowering) sampleRegistry newWorld
            {| tool_name := "execute_task"; tool_arguments := taskNameArgs "" None |} 0)
     = Returned {| text := "Error executing tool 'execute_task': taskName is required";
                   isError := true |}.
Proof.
  destruct (stdio_unknown_name sampleRegistry newWorld [npmBuild; gruntBuild] "" None 0
              eq_refl
              ltac:(intros task [<-|[<-|[]]]; discriminate)
              ltac:(intros exec [])) as (H & _).
  split; [exact H | reflexivity].
Defined.
